(** * VariantWorks: the VCF label loader and the pileup summary encoder

    A shallow embedding of [claragenomics/variantworks/label_loader.py]
    (the [VCFLabelLoader] class) together with models of the two pileup
    operations that the test-suite [tests/test_summary_encoder.py]
    exercises ([find_insertions] and [SummaryEncoder]).

    Python objects are embedded as follows.
    - [str] is [string]; lists are [list]; [None]-able values are [option].
    - a [dict] iterated with [items()] is an association list in insertion
      order;
    - the in-place mutation of [self._labels], the warnings emitted through
      [warnings.warn] and the files opened through [vcf.Reader] are fields of
      an explicit state that is threaded through the loader;
    - a raised exception ends the computation and keeps the state reached so
      far (the list was mutated in place before the raise). *)

From Stdlib Require Import String Ascii List ZArith Lia Bool Arith.
From Stdlib Require Import DecimalString.
Import ListNotations.
Open Scope string_scope.

(** ** Python primitives used by the loader *)

Module Py.

(** [sep.join(l)] *)
Definition join (sep : string) (l : list string) : string := String.concat sep l.

(** [s[-n:]] for [n > 0]: the last [n] characters, the whole string when it
    is shorter. *)
Definition last_chars (n : nat) (s : string) : string :=
  substring (String.length s - n) n s.

(** [str(z)] for an [int]. *)
Definition str_int (z : Z) : string := NilZero.string_of_int (Z.to_int z).

(** A Python value as far as the loader looks at it: the loader only asks
    whether a value is [None], whether its type is [bool], and otherwise
    calls [str] on it. *)
Inductive atom : Type :=
| ANone
| ABool (b : bool)
| AInt (z : Z)
| AStr (s : string)
| AObj (text : string).   (* any other object, e.g. a float; [text] is what [str] gives *)

(** [str(x)] *)
Definition str (a : atom) : string :=
  match a with
  | ANone => "None"
  | ABool true => "True"
  | ABool false => "False"
  | AInt z => str_int z
  | AStr s => s
  | AObj t => t
  end.

(** A value stored in a dictionary: [type(v) is list] or not. *)
Inductive value : Type :=
| VList (l : list atom)
| VAtom (a : atom).

(** A [dict] with string keys, in insertion order. *)
Definition dict := list (string * value).

End Py.

(** ** [variantworks.types] *)

Module Types.

Inductive VariantZygosity : Type := NO_VARIANT | HETEROZYGOUS | HOMOZYGOUS.

Inductive VariantType : Type := SNP | INSERTION | DELETION.

Record Variant : Type := mkVariant {
  chrom : string;
  pos : Z;
  id : option string;
  ref : string;
  allele : string;
  quality : Py.atom;
  filter : option (list string);
  info : string;
  format : option string;
  samples : list string;
  zygosity : VariantZygosity;
  type : VariantType;
  vcf : string;
  bam : string
}.

End Types.

(** ** The part of PyVCF the loader reads

    [vcf.Reader] and its records are an external library.  A record is
    carried with the attributes the loader reads.  The shape predicates
    [is_snp], [is_indel] and [is_deletion] are attributes of the record; the
    genotype counts are PyVCF's counts over the record's calls. *)

Module Vcf.

(** [_Call.gt_type]: [None] for an uncalled genotype, else hom-ref, het or
    hom-alt (PyVCF's 0, 1, 2). *)
Inductive gt_type : Type := HomRef | Het | HomAlt.

Record call : Type := mkCall {
  call_gt_type : option gt_type;
  data : list Py.atom
}.

(** [_Call.called]: the genotype is not missing. *)
Definition called (c : call) : bool :=
  match call_gt_type c with Some _ => true | None => false end.

Definition is_het (c : call) : bool :=
  match call_gt_type c with Some Het => true | _ => false end.

Definition is_hom_alt (c : call) : bool :=
  match call_gt_type c with Some HomAlt => true | _ => false end.

(** An entry of [record.ALT]: a substitution carries a [sequence]; anything
    else (a missing allele, a structural variant, a breakend) does not. *)
Inductive alt : Type :=
| Substitution (sequence : string)
| OtherAlt.

Record record : Type := mkRecord {
  CHROM : string;
  POS : Z;
  ID : option string;
  REF : string;
  ALT : list alt;
  QUAL : Py.atom;
  FILTER : option (list string);
  INFO : Py.dict;
  FORMAT : option string;
  samples : list call;
  is_snp : bool;
  is_indel : bool;
  is_deletion : bool
}.

Definition num_called (r : record) : nat := length (List.filter called (samples r)).
Definition num_het (r : record) : nat := length (List.filter is_het (samples r)).
Definition num_hom_alt (r : record) : nat := length (List.filter is_hom_alt (samples r)).

(** What [vcf.Reader(filename=...)] gives: the sample names of the header
    and the records in file order. *)
Record Reader : Type := mkReader {
  reader_samples : list string;
  reader_records : list record
}.

End Vcf.

(** ** [label_loader.py] *)

Module LabelLoader.

Import Py Types Vcf.

(** *** [_get_record_info] *)

(** The body of the [for k, v in info_dict.items()] loop: the string that is
    appended to [ret_list]. *)
Definition info_entry (k : string) (v : value) : string :=
  match v with
  | VList l => k ++ "=" ++ join "," (map str l)
  | VAtom (ABool _) => k
  | VAtom a => k ++ "=" ++ str a
  end.

(** The loop, with [ret_list] as accumulator. *)
Fixpoint info_loop (items : dict) (ret_list : list string) : list string :=
  match items with
  | [] => ret_list
  | (k, v) :: rest => info_loop rest (ret_list ++ [info_entry k v])
  end.

Definition _get_record_info (info_dict : dict) : string :=
  join ";" (info_loop info_dict []).

(** The flattening as the specification words it: every entry is rendered
    on its own, and the renderings are joined with [;] in key order. *)
Definition spec_render_list (k : string) (vs : list atom) : string :=
  k ++ "=" ++ join "," (map str vs).
Definition spec_render_flag (k : string) : string := k.
Definition spec_render_scalar (k : string) (a : atom) : string :=
  k ++ "=" ++ str a.

Definition is_bool (a : atom) : bool :=
  match a with ABool _ => true | _ => false end.

Definition spec_render (e : string * value) : string :=
  match snd e with
  | VList vs => spec_render_list (fst e) vs
  | VAtom a => if is_bool a then spec_render_flag (fst e)
               else spec_render_scalar (fst e) a
  end.

Definition spec_flatten (d : dict) : string := join ";" (map spec_render d).

(** *** The loader's state and its exceptions *)

(** [warnings.warn("%s is filtered - ..." % record)]: the record and the
    text after it. *)
Record warning : Type := mkWarning {
  warned_record : record;
  warned_text : string
}.

Record loader_state : Type := mkState {
  labels : list Variant;        (* [self._labels] *)
  warned : list warning;        (* what [warnings.warn] was called with, in order *)
  opened : list string          (* the files handed to [vcf.Reader], in order *)
}.

Definition initial_state : loader_state :=
  {| labels := []; warned := []; opened := [] |}.

Inductive exn : Type :=
| AssertionError (msg : string)
| RuntimeError (msg : string)
| ValueError (msg : string) (about : record)   (* [msg.format(record)] *)
| AttributeError                               (* [alt.sequence] on an allele without one *)
| OSError (path : string).                     (* [vcf.Reader] cannot open the file *)

Inductive outcome (A : Type) : Type :=
| Done (a : A) (st : loader_state)
| Raised (e : exn) (st : loader_state).
Arguments Done {A} a st.
Arguments Raised {A} e st.

Definition M (A : Type) : Type := loader_state -> outcome A.

Definition ret {A} (a : A) : M A := fun st => Done a st.
Definition raise {A} (e : exn) : M A := fun st => Raised e st.
Definition bind {A B} (m : M A) (k : A -> M B) : M B :=
  fun st => match m st with
            | Done a st' => k a st'
            | Raised e st' => Raised e st'
            end.

Notation "x <- m ;; k" := (bind m (fun x => k))
  (at level 61, m at next level, right associativity).
Notation "m ;; k" := (bind m (fun _ => k))
  (at level 61, right associativity).

(** [assert c, msg] *)
Definition assert (c : bool) (msg : string) : M unit :=
  if c then ret tt else raise (AssertionError msg).

(** The three ways the loader changes its state. *)
Definition add_warning (w : warning) (st : loader_state) : loader_state :=
  {| labels := labels st; warned := warned st ++ [w]; opened := opened st |}.

Definition add_labels (vs : list Variant) (st : loader_state) : loader_state :=
  {| labels := labels st ++ vs; warned := warned st; opened := opened st |}.

Definition add_opened (f : string) (st : loader_state) : loader_state :=
  {| labels := labels st; warned := warned st; opened := opened st ++ [f] |}.

(** [warnings.warn(text % record)] *)
Definition warn (r : record) (text : string) : M unit :=
  fun st => Done tt (add_warning (mkWarning r text) st).

(** [labels.append(variant)] *)
Definition append_label (v : Variant) : M unit :=
  fun st => Done tt (add_labels [v] st).

(** The state of the outcome, however the computation ended. *)
Definition final_state {A} (o : outcome A) : loader_state :=
  match o with Done _ st => st | Raised _ st => st end.

(** *** [_get_variant_zygosity] and [_get_variant_type] *)

Definition _get_variant_zygosity (r : record) (is_fp : bool) : exn + VariantZygosity :=
  if is_fp then inr NO_VARIANT
  else if (0 <? num_het r)%nat then inr HETEROZYGOUS
  else if (0 <? num_hom_alt r)%nat then inr HOMOZYGOUS
  else inl (ValueError "Unexpected variant zygosity - {}" r).

Definition _get_variant_type (r : record) : exn + VariantType :=
  if is_snp r then inr SNP
  else if is_indel r then
    if is_deletion r then inr DELETION else inr INSERTION
  else inl (ValueError "Unexpected variant type - {}" r).

(** *** [_create_variant_tuple_from_record] *)

(** [':'.join(map(lambda x: str(x) if x is not None else '.', sample.data))] *)
Definition sample_field (x : atom) : string :=
  match x with ANone => "." | _ => str x end.

Definition sample_text (c : call) : string :=
  join ":" (map sample_field (data c)).

(** The generator yields one [Variant] per allele and may stop with an
    exception: its run is the variants yielded, then the exception if one
    was raised. *)
Definition generated : Type := (list Variant * option exn)%type.

Fixpoint yield_alleles (r : record) (vcf_file bam : string)
    (var_zyg : VariantZygosity) (var_type : VariantType)
    (alts : list alt) : generated :=
  match alts with
  | [] => ([], None)
  | OtherAlt :: _ => ([], Some AttributeError)
  | Substitution var_allele :: rest =>
      let v := {| chrom := CHROM r; pos := POS r; id := ID r; ref := REF r;
                  allele := var_allele; quality := QUAL r; filter := FILTER r;
                  info := _get_record_info (INFO r); format := FORMAT r;
                  Types.samples := map sample_text (Vcf.samples r);
                  zygosity := var_zyg; type := var_type;
                  vcf := vcf_file; bam := bam |} in
      let (vs, e) := yield_alleles r vcf_file bam var_zyg var_type rest in
      (v :: vs, e)
  end.

Definition _create_variant_tuple_from_record (r : record)
    (vcf_file bam : string) (is_fp : bool) : generated :=
  match _get_variant_zygosity r is_fp with
  | inl e => ([], Some e)
  | inr var_zyg =>
      match _get_variant_type r with
      | inl e => ([], Some e)
      | inr var_type => yield_alleles r vcf_file bam var_zyg var_type (ALT r)
      end
  end.

(** *** [_parse_vcf] *)

(** [for variant in gen: labels.append(variant)] *)
Fixpoint append_all (vs : list Variant) : M unit :=
  match vs with
  | [] => ret tt
  | v :: rest => append_label v ;; append_all rest
  end.

Definition consume (g : generated) : M unit :=
  append_all (fst g) ;;
  match snd g with
  | None => ret tt
  | Some e => raise e
  end.

(** The body of [for record in vcf_reader]; [nsamples] is
    [len(vcf_reader.samples)]. *)
Definition parse_record (nsamples : nat) (vcf_file bam : string) (is_fp : bool)
    (r : record) : M unit :=
  if negb (is_snp r) then
    warn r "%s is filtered - not an SNP record"
  else if (num_called r <? nsamples)%nat then
    warn r "%s is filtered - no samples in this record are called"
  else if (1 <? length (ALT r))%nat then
    warn r "%s is filtered - multiallele recrods are not supported"
  else
    consume (_create_variant_tuple_from_record r vcf_file bam is_fp).

Fixpoint parse_records (nsamples : nat) (vcf_file bam : string) (is_fp : bool)
    (rs : list record) : M unit :=
  match rs with
  | [] => ret tt
  | r :: rest =>
      parse_record nsamples vcf_file bam is_fp r ;;
      parse_records nsamples vcf_file bam is_fp rest
  end.

Section Loader.

(** The file system as [vcf.Reader] sees it. *)
Variable fs : string -> option Reader.

(** [vcf.Reader(filename=vcf_file)] *)
Definition open_reader (vcf_file : string) : M Reader :=
  fun st =>
    match fs vcf_file with
    | Some rd => Done rd (add_opened vcf_file st)
    | None => Raised (OSError vcf_file) (add_opened vcf_file st)
    end.

Definition _parse_vcf (vcf_file bam : string) (is_fp : bool) : M unit :=
  assert (last_chars 3 vcf_file =? ".gz")
         "VCF file needs to be compressed and indexed" ;;
  vcf_reader <- open_reader vcf_file ;;
  if negb (length (reader_samples vcf_reader) =? 1)%nat then
    raise (RuntimeError ("Input vcf file " ++ vcf_file ++
                         " must only contain a single sample"))
  else
    parse_records (length (reader_samples vcf_reader)) vcf_file bam is_fp
                  (reader_records vcf_reader).

(** *** [VCFLabelLoader.__init__] *)

(** [VcfBamPaths]; a path may be [None]. *)
Record VcfBamPaths : Type := mkPaths {
  paths_vcf : option string;
  paths_bam : option string;
  is_fp : bool
}.

Definition load_elem (elem : VcfBamPaths) : M unit :=
  match paths_vcf elem, paths_bam elem with
  | Some v, Some b => _parse_vcf v b (is_fp elem)
  | _, _ => raise (AssertionError "")
  end.

Fixpoint load_all (vcf_bam_list : list VcfBamPaths) : M unit :=
  match vcf_bam_list with
  | [] => ret tt
  | elem :: rest => load_elem elem ;; load_all rest
  end.

(** [VCFLabelLoader(vcf_bam_list)]: [super().__init__()] sets
    [self._labels = []], then the batch is parsed in order. *)
Definition VCFLabelLoader (vcf_bam_list : list VcfBamPaths) : outcome unit :=
  load_all vcf_bam_list initial_state.

End Loader.

(** *** What the specification calls a heterozygous and a homozygous-alt
    call of a record *)

Definition has_het_call (r : record) : Prop :=
  exists c, In c (Vcf.samples r) /\ call_gt_type c = Some Het.

Definition has_hom_alt_call (r : record) : Prop :=
  exists c, In c (Vcf.samples r) /\ call_gt_type c = Some HomAlt.

Definition has_called_genotype (r : record) : Prop :=
  exists c, In c (Vcf.samples r) /\ called c = true.

(** The loader stops with a configuration error and has parsed nothing: no
    file was opened, no warning given, no label stored. *)
Definition raises_before_any_parsing (o : outcome unit) : Prop :=
  exists msg, o = Raised (AssertionError msg) initial_state.

(** A path that does not end in [.gz]. *)
Definition uncompressed (elem : VcfBamPaths) : Prop :=
  exists v, paths_vcf elem = Some v /\ last_chars 3 v <> ".gz".

(** A record gets past the three filters of [_parse_vcf]. *)
Definition passes_filters (nsamples : nat) (r : record) : Prop :=
  is_snp r = true /\ nsamples <= num_called r /\ length (ALT r) <= 1.

End LabelLoader.

(** ** Sample inputs *)

Module Fixtures.

Import Py Types Vcf LabelLoader.

(** A single-sample SNP record [chr1:100 A>alts] with genotype [gt]. *)
Definition snp (alts : list string) (gt : option gt_type) (gt_text : string) : record :=
  {| CHROM := "chr1"; POS := 100; ID := None; REF := "A";
     ALT := map Substitution alts; QUAL := AInt 50; FILTER := Some [];
     INFO := [("DP", VAtom (AInt 10)); ("DB", VAtom (ABool true))];
     FORMAT := Some "GT";
     Vcf.samples := [ {| call_gt_type := gt; data := [AStr gt_text] |} ];
     is_snp := true; is_indel := false; is_deletion := false |}.

Definition het_snp : record := snp ["G"] (Some Het) "0/1".
Definition hom_snp : record := snp ["G"] (Some HomAlt) "1/1".
Definition ref_snp : record := snp ["G"] (Some HomRef) "0/0".
Definition uncalled_snp : record := snp ["G"] None "./.".
Definition multi_snp : record := snp ["G"; "T"] (Some Het) "1/2".

(** Three files: a well-formed one, one with two samples, and one that is
    not compressed. *)
Definition files (path : string) : option Reader :=
  if path =? "good.vcf.gz" then
    Some {| reader_samples := ["NA12878"]; reader_records := [het_snp; multi_snp; hom_snp] |}
  else if path =? "two.vcf.gz" then
    Some {| reader_samples := ["S1"; "S2"]; reader_records := [het_snp] |}
  else if path =? "plain.vcf" then
    Some {| reader_samples := ["NA12878"]; reader_records := [het_snp] |}
  else None.

Definition triple (v : string) (fp : bool) : VcfBamPaths :=
  {| paths_vcf := Some v; paths_bam := Some "reads.bam"; is_fp := fp |}.

End Fixtures.

(** ** The pileup column grammar *)

Module Pileup.

(** The two kinds of run a column can hold: [+<N><seq>] and [-<N><seq>]. *)
Inductive run_kind : Type := InsertionRun | DeletionRun.

Definition sign (k : run_kind) : ascii :=
  match k with InsertionRun => "+"%char | DeletionRun => "-"%char end.

Record run : Type := mkRun {
  kind : run_kind;
  run_start : nat;          (* offset of the sign in the column *)
  run_bases : string;       (* the [N] characters after the run length *)
  after_sentinel : bool     (* the sign comes right after a [*] *)
}.

(** The scanner is between calls, inside the decimal run length, or inside
    the bases of a run, of which [S more] are still to be read. *)
Inductive mode : Type :=
| Calls
| RunLength (k : run_kind) (start : nat) (flag : bool) (n : nat)
| RunBases (k : run_kind) (start : nat) (flag : bool) (more : nat) (acc : string).

Definition digit_of (c : ascii) : option nat :=
  let n := nat_of_ascii c in
  if ((48 <=? n) && (n <=? 57))%nat then Some (n - 48) else None.

Definition is_star (prev : option ascii) : bool :=
  match prev with
  | Some c => Ascii.eqb c "*"
  | None => false
  end.

(** A character read between tokens: a sign opens a run, anything else (a
    base, [*], [#]) is a call and is not reported. *)
Definition step_call (off : nat) (prev : option ascii) (c : ascii) : mode :=
  if Ascii.eqb c "+" then RunLength InsertionRun off (is_star prev) 0
  else if Ascii.eqb c "-" then RunLength DeletionRun off (is_star prev) 0
  else Calls.

(** One more base of a run: the run is complete when none is left. *)
Definition take (k : run_kind) (start : nat) (flag : bool)
    (more : nat) (acc : string) (c : ascii) : mode * list run :=
  match more with
  | 0 => (Calls, [mkRun k start (acc ++ String c "") flag])
  | S m => (RunBases k start flag m (acc ++ String c ""), [])
  end.

(** Modelled from the spec: the tokenizer behind [find_insertions], whose
    source is not in the repository snapshot.  The scanner reads one
    character [c] at offset [off]; [prev] is the character before it.  The
    whole decimal run length is read before the bases are taken. *)
Definition step (off : nat) (prev : option ascii) (m : mode) (c : ascii)
    : mode * list run :=
  match m with
  | Calls => (step_call off prev c, [])
  | RunLength k start flag n =>
      match digit_of c with
      | Some d => (RunLength k start flag (10 * n + d), [])
      | None =>
          match n with
          | 0 => (step_call off prev c, [mkRun k start "" flag])
          | S m => take k start flag m "" c
          end
      end
  | RunBases k start flag more acc => take k start flag more acc c
  end.

(** Modelled from the spec: the left-to-right pass of [find_insertions]
    over the column.  It gives the runs of the column in order, and [None]
    when the column ends inside a run, which the grammar does not allow. *)
Fixpoint scan (s : string) (off : nat) (prev : option ascii) (m : mode)
    : option (list run) :=
  match s with
  | EmptyString =>
      match m with
      | Calls => Some []
      | _ => None
      end
  | String c rest =>
      let (m', out) := step off prev m c in
      match scan rest (S off) (Some c) m' with
      | Some runs => Some (out ++ runs)%list
      | None => None
      end
  end.

Definition is_insertion (r : run) : bool :=
  match kind r with InsertionRun => true | DeletionRun => false end.

(** Deletion runs are consumed but not returned. *)
Definition insertion_runs (column : string) : option (list run) :=
  option_map (List.filter is_insertion) (scan column 0 None Calls).

(** The canonical form of an inserted sequence.  The two examples of the
    specification return ["C"] and ["ga"] as they are written in the column,
    so the canonical form keeps the letters and their case. *)
Definition canonical (bases : string) : string := bases.

(** Modelled from the spec: [variantworks.utils.encoders.find_insertions]
    is imported by the tests but its source is not in the repository
    snapshot.  Following section 4.2 of the specification it returns the
    inserted sequences in order of occurrence and, in parallel, whether each
    insertion comes right after a [*] in the raw string. *)
Definition find_insertions (column : string) : option (list string * list bool) :=
  option_map
    (fun ins => (map (fun r => canonical (run_bases r)) ins, map after_sentinel ins))
    (insertion_runs column).

(** A run is where the scanner says it is, and its flag tells whether the
    character before its sign is [*]. *)
Definition located (column : string) (k : run_kind) (start : nat) (flag : bool) : Prop :=
  String.get start column = Some (sign k)
  /\ (flag = true <->
      exists before, start = S before /\ String.get before column = Some "*"%char).

Definition well_located (column : string) (r : run) : Prop :=
  located column (kind r) (run_start r) (after_sentinel r).

(** What the scanner knows while it reads [column]: [rest] is what is left
    from offset [off] on, [prev] is the character before that offset, and a
    run that has been opened is where the mode says. *)
Definition suffix_at (column : string) (off : nat) (rest : string) : Prop :=
  exists pre, column = pre ++ rest /\ String.length pre = off.

Definition prev_at (column : string) (off : nat) (prev : option ascii) : Prop :=
  match off with
  | 0 => prev = None
  | S before => prev = String.get before column
  end.

Definition mode_located (column : string) (m : mode) : Prop :=
  match m with
  | Calls => True
  | RunLength k start flag _ => located column k start flag
  | RunBases k start flag _ _ => located column k start flag
  end.

End Pileup.

(** ** The pileup summary encoder *)

Module SummaryEncoder.

Record FileRegion : Type := mkRegion {
  start_pos : nat;
  end_pos : nat;
  file_path : string
}.

Record config : Type := mkConfig {
  exclude_no_coverage_positions : bool;
  normalize_counts : bool
}.

(** What the pileup source gives for one position: the number of aligned
    reads and the read-stack text. *)
Record column : Type := mkColumn {
  depth : nat;
  bases : string
}.

Section Encoder.

(** The pileup source: the column of a file at a position, if it has one. *)
Variable source : string -> nat -> option column.

(** The number of rows a column adds to its first one.  The specification
    leaves the expansion rule for insertions open, so it is a parameter. *)
Variable sub_rows : column -> nat.

(** A row of the count matrix: the counts of a column for one sub-index,
    normalised or not as the configuration says.  The numbers are the
    business of the array library. *)
Variable row : Type.
Variable encode_row : config -> column -> nat -> row.

Definition retained (cfg : config) (col : column) : bool :=
  negb (exclude_no_coverage_positions cfg && (depth col =? 0)%nat).

(** The sub-indices of a retained column: [0], then one per added row. *)
Definition sub_indices (col : column) : list nat := seq 0 (S (sub_rows col)).

(** Modelled from the spec: what [SummaryEncoder] appends for one position,
    each row with its position and sub-index.  A position without data or
    without coverage (when those are excluded) gives no row. *)
Definition rows_at (cfg : config) (path : string) (p : nat)
    : list (row * (nat * nat)) :=
  match source path p with
  | None => []
  | Some col =>
      if retained cfg col
      then map (fun i => (encode_row cfg col i, (p, i))) (sub_indices col)
      else []
  end.

Definition positions_of (region : FileRegion) : list nat :=
  seq (start_pos region) (end_pos region - start_pos region).

(** The number of rows a list of positions gives. *)
Definition rows_over (cfg : config) (path : string) (ps : list nat) : nat :=
  length (flat_map (rows_at cfg path) ps).

(** Modelled from the spec: [variantworks.encoders.SummaryEncoder] is
    imported by the tests but its source is not in the repository snapshot.
    Following section 4.3 of the specification, the encoder walks the
    positions of the region in ascending order and returns the count matrix
    and the position index, row for row. *)
Definition encode (cfg : config) (region : FileRegion)
    : list row * list (nat * nat) :=
  let rows := flat_map (rows_at cfg (file_path region)) (positions_of region) in
  (map fst rows, map snd rows).

Definition count_matrix (cfg : config) (region : FileRegion) : list row :=
  fst (encode cfg region).

Definition position_index (cfg : config) (region : FileRegion) : list (nat * nat) :=
  snd (encode cfg region).

Definition row_count (cfg : config) (region : FileRegion) : nat :=
  length (count_matrix cfg region).

(** The region is fully covered by pileup data. *)
Definition fully_covered (region : FileRegion) : Prop :=
  forall p, start_pos region <= p < end_pos region ->
            source (file_path region) p <> None.

Definition is_retained (cfg : config) (path : string) (p : nat) : bool :=
  match source path p with
  | Some col => retained cfg col
  | None => false
  end.

(** The retained genomic positions of the region. *)
Definition retained_positions (cfg : config) (region : FileRegion) : list nat :=
  List.filter (is_retained cfg (file_path region)) (positions_of region).

(** The rows added for insertions at a position. *)
Definition added_rows (path : string) (p : nat) : nat :=
  match source path p with
  | Some col => sub_rows col
  | None => 0
  end.

Definition total_added_rows (cfg : config) (region : FileRegion) : nat :=
  list_sum (map (added_rows (file_path region)) (retained_positions cfg region)).

(** The claim of the specification for one region. *)
Definition one_row_per_retained_position (cfg : config) (region : FileRegion) : Prop :=
  fully_covered region ->
  row_count cfg region = length (retained_positions cfg region)
  /\ (end_pos region = S (start_pos region) ->
      position_index cfg region = [(start_pos region, 0)]).

End Encoder.

(** *** A small pileup *)

(** Ten positions of depth three; position 5 carries a one-base
    insertion. *)
Definition toy_source (path : string) (p : nat) : option column :=
  if (p <? 10)%nat then
    Some (if (p =? 5)%nat then {| depth := 3; bases := "A+1TAa" |}
          else {| depth := 3; bases := "AAa" |})
  else None.

(** One added row per base of the longest insertion of the column. *)
Definition longest_insertion (col : column) : nat :=
  match Pileup.find_insertions (bases col) with
  | Some (seqs, _) => fold_right Nat.max 0 (map String.length seqs)
  | None => 0
  end.

Definition toy_row (cfg : config) (col : column) (i : nat) : nat := depth col.

Definition toy_config : config :=
  {| exclude_no_coverage_positions := false; normalize_counts := true |}.

End SummaryEncoder.

(** ** [BaseLabelLoader] and [LabelLoaderIterator] *)

Module Container.

Import Types.

(** A constructed loader: the object holds [self._labels]. *)
Record BaseLabelLoader : Type := mkLoader {
  _labels : list Variant
}.

(** The two exceptions of the container protocol. *)
Inductive signal : Type := IndexError | StopIteration.

(** [len(self._labels)] *)
Definition __len__ (self : BaseLabelLoader) : nat := length (_labels self).

(** [self._labels[idx]] for an integer index: a negative index counts from
    the end, an index outside the list raises [IndexError]. *)
Definition __getitem__ (self : BaseLabelLoader) (idx : Z) : signal + Variant :=
  let n := Z.of_nat (length (_labels self)) in
  let i := if (idx <? 0)%Z then (idx + n)%Z else idx in
  if ((i <? 0) || (n <=? i))%Z then inl IndexError
  else match nth_error (_labels self) (Z.to_nat i) with
       | Some v => inr v
       | None => inl IndexError
       end.

Record LabelLoaderIterator : Type := mkIterator {
  _label_loader : BaseLabelLoader;
  _index : nat
}.

(** [LabelLoaderIterator(self)] *)
Definition __iter__ (self : BaseLabelLoader) : LabelLoaderIterator :=
  {| _label_loader := self; _index := 0 |}.

(** [__next__]: what is returned or raised, and the iterator afterwards.
    The index moves only when the lookup has returned. *)
Definition __next__ (self : LabelLoaderIterator)
    : (signal + Variant) * LabelLoaderIterator :=
  if (_index self <? __len__ (_label_loader self))%nat then
    match __getitem__ (_label_loader self) (Z.of_nat (_index self)) with
    | inr result =>
        (inr result,
         {| _label_loader := _label_loader self; _index := S (_index self) |})
    | inl e => (inl e, self)
    end
  else (inl StopIteration, self).

(** [for x in it: out.append(x)]: [__next__] is called until it raises.
    [StopIteration] ends the loop, any other exception leaves it; [None]
    when [fuel] calls were not enough. *)
Fixpoint collect (fuel : nat) (it : LabelLoaderIterator)
    : option (signal + list Variant) :=
  match fuel with
  | 0 => None
  | S fuel' =>
      match __next__ it with
      | (inr x, it') =>
          match collect fuel' it' with
          | Some (inr xs) => Some (inr (x :: xs))
          | other => other
          end
      | (inl StopIteration, _) => Some (inr [])
      | (inl e, _) => Some (inl e)
      end
  end.

(** The iterator after a label was returned. *)
Definition advanced (it : LabelLoaderIterator) : LabelLoaderIterator :=
  {| _label_loader := _label_loader it; _index := S (_index it) |}.

(** The object a construction leaves: none when [__init__] raised. *)
Definition constructed (o : LabelLoader.outcome unit) : option BaseLabelLoader :=
  match o with
  | LabelLoader.Done _ st => Some {| _labels := LabelLoader.labels st |}
  | LabelLoader.Raised _ _ => None
  end.

(** The loader of the sample file: two labels. *)
Definition sample_loader : BaseLabelLoader :=
  {| _labels :=
       LabelLoader.labels
         (LabelLoader.final_state
            (LabelLoader.VCFLabelLoader Fixtures.files
               [Fixtures.triple "good.vcf.gz" false])) |}.

End Container.

(** ** Composing loader runs *)

Module Compose.

Import Py Types Vcf LabelLoader.

(** The state [st] followed by what a run from the empty state added. *)
Definition extend (st added : loader_state) : loader_state :=
  {| labels := labels st ++ labels added;
     warned := warned st ++ warned added;
     opened := opened st ++ opened added |}.

Definition prepend {A} (st : loader_state) (o : outcome A) : outcome A :=
  match o with
  | Done a added => Done a (extend st added)
  | Raised e added => Raised e (extend st added)
  end.

(** A computation that does not look at the state it starts from: it only
    appends to it. *)
Definition appends_only {A} (m : M A) : Prop :=
  forall st, m st = prepend st (m initial_state).

(** A label repeats the fields of the record [r] it was made from; its
    allele is the one ALT allele of [r]. *)
Definition echoes (r : record) (x : Variant) : Prop :=
  chrom x = CHROM r /\ pos x = POS r /\ id x = ID r /\ ref x = REF r
  /\ ALT r = [Substitution (allele x)]
  /\ quality x = QUAL r /\ filter x = FILTER r
  /\ info x = _get_record_info (INFO r) /\ format x = FORMAT r
  /\ Types.samples x = map sample_text (Vcf.samples r).

(** A label made from the record [r] of the file [v] loaded with [b] and
    [fp]: [r] is an SNP record, the label repeats it, carries the two paths,
    is typed [SNP] and has the zygosity the classifier gives. *)
Definition made_from (r : record) (v b : string) (fp : bool) (x : Variant) : Prop :=
  is_snp r = true /\ echoes r x
  /\ vcf x = v /\ bam x = b /\ type x = SNP
  /\ _get_variant_zygosity r fp = inr (zygosity x).

(** A label that comes from a record of a file of the batch. *)
Definition label_origin (fs : string -> option Reader)
    (batch : list VcfBamPaths) (x : Variant) : Prop :=
  exists elem v b rd r,
    In elem batch /\ paths_vcf elem = Some v /\ paths_bam elem = Some b
    /\ fs v = Some rd /\ In r (reader_records rd)
    /\ made_from r v b (is_fp elem) x.

(** The filters of [_parse_vcf] as a function of the record: the text of
    the warning of the first filter the record fails, if it fails one. *)
Definition filter_text (nsamples : nat) (r : record) : option string :=
  if negb (is_snp r) then Some "%s is filtered - not an SNP record"
  else if (num_called r <? nsamples)%nat then
    Some "%s is filtered - no samples in this record are called"
  else if (1 <? length (ALT r))%nat then
    Some "%s is filtered - multiallele recrods are not supported"
  else None.

(** What one record contributes to the labels and to the warnings. *)
Definition record_labels (nsamples : nat) (v b : string) (fp : bool) (r : record)
    : list Variant :=
  match filter_text nsamples r with
  | Some _ => []
  | None => fst (_create_variant_tuple_from_record r v b fp)
  end.

Definition record_warnings (nsamples : nat) (r : record) : list warning :=
  match filter_text nsamples r with
  | Some text => [mkWarning r text]
  | None => []
  end.

(** A triple the loader can load: both paths given, the VCF path ends in
    [.gz], the file opens and has one sample. *)
Definition loadable (fs : string -> option Reader) (elem : VcfBamPaths) : Prop :=
  exists v b rd,
    paths_vcf elem = Some v /\ paths_bam elem = Some b
    /\ last_chars 3 v = ".gz"
    /\ fs v = Some rd /\ length (reader_samples rd) = 1.

(** The exceptions [VCFLabelLoader] can end with. *)
Definition expected_exception (e : exn) : Prop :=
  match e with
  | AssertionError msg =>
      msg = "" \/ msg = "VCF file needs to be compressed and indexed"
  | RuntimeError msg =>
      exists v, msg = "Input vcf file " ++ v ++ " must only contain a single sample"
  | ValueError msg r =>
      msg = "Unexpected variant zygosity - {}"
      /\ is_snp r = true /\ num_het r = 0 /\ num_hom_alt r = 0
  | AttributeError => True
  | OSError _ => True
  end.

End Compose.

(** * Properties of the label loader *)

Module LabelLoaderFacts.

Import Py Types Vcf LabelLoader.

(** ** INFO flattening *)

Lemma info_entry_spec_render k v : info_entry k v = spec_render (k, v).
Proof.
  destruct v as [l | a]; [reflexivity |].
  destruct a; reflexivity.
Qed.

Lemma info_loop_acc (d : dict) : forall acc,
  info_loop d acc = (acc ++ map spec_render d)%list.
Proof.
  induction d as [| [k v] rest IH]; intros acc; simpl.
  - now rewrite app_nil_r.
  - rewrite IH, <- app_assoc, info_entry_spec_render. reflexivity.
Qed.

(** C8: [_get_record_info] renders a list-valued entry as [key=v1,...,vn],
    a boolean entry as the bare key and any other entry as [key=value], and
    joins the renderings with [;] in the order of the keys. *)
Theorem get_record_info_flattens (d : dict) :
  _get_record_info d = spec_flatten d.
Proof.
  unfold _get_record_info, spec_flatten.
  now rewrite info_loop_acc.
Qed.

(** C10: a boolean entry is rendered as the bare key whatever its value:
    replacing [True] by [False] (or back) anywhere in the dictionary leaves
    the flattened string unchanged, and a dictionary holding one flag is
    rendered as the key alone. *)
Theorem get_record_info_ignores_flag_value
    (before after : dict) (k : string) (b1 b2 : bool) :
  _get_record_info (before ++ (k, VAtom (ABool b1)) :: after)%list
  = _get_record_info (before ++ (k, VAtom (ABool b2)) :: after)%list
  /\ _get_record_info [(k, VAtom (ABool b1))] = k.
Proof.
  split.
  - unfold _get_record_info. rewrite !info_loop_acc, !map_app. reflexivity.
  - reflexivity.
Qed.

(** ** The state monad *)

Lemma append_all_run (vs : list Variant) : forall st,
  append_all vs st = Done tt (add_labels vs st).
Proof.
  induction vs as [| v rest IH]; intros [ls ws os]; simpl.
  - unfold ret, add_labels; simpl. now rewrite app_nil_r.
  - unfold bind, append_label. rewrite IH.
    unfold add_labels; simpl. now rewrite <- app_assoc.
Qed.

Lemma consume_run (g : generated) (st : loader_state) :
  consume g st =
  match snd g with
  | None => Done tt (add_labels (fst g) st)
  | Some e => Raised e (add_labels (fst g) st)
  end.
Proof.
  unfold consume, bind. rewrite append_all_run.
  destruct (snd g); reflexivity.
Qed.

Lemma add_labels_nil st : add_labels [] st = st.
Proof. destruct st; unfold add_labels; simpl. now rewrite app_nil_r. Qed.

Lemma parse_records_app n v b fp (rs1 rs2 : list record) : forall st,
  parse_records n v b fp (rs1 ++ rs2) st =
  match parse_records n v b fp rs1 st with
  | Done _ st' => parse_records n v b fp rs2 st'
  | Raised e st' => Raised e st'
  end.
Proof.
  induction rs1 as [| r rest IH]; intros st; simpl; [reflexivity |].
  unfold bind.
  destruct (parse_record n v b fp r st) as [[] st' | e st']; [apply IH | reflexivity].
Qed.

Lemma load_all_app fs (l1 l2 : list VcfBamPaths) : forall st,
  load_all fs (l1 ++ l2) st =
  match load_all fs l1 st with
  | Done _ st' => load_all fs l2 st'
  | Raised e st' => Raised e st'
  end.
Proof.
  induction l1 as [| x rest IH]; intros st; simpl; [reflexivity |].
  unfold bind.
  destruct (load_elem fs x st) as [[] st' | e st']; [apply IH | reflexivity].
Qed.

(** ** Counting calls *)

Lemma filter_length_pos {A} (f : A -> bool) (l : list A) :
  0 < length (List.filter f l) <-> exists x, In x l /\ f x = true.
Proof.
  split.
  - destruct (List.filter f l) as [| x t] eqn:E; simpl; [lia |].
    intros _. exists x. apply filter_In. rewrite E. now left.
  - intros [x Hx]. apply filter_In in Hx.
    destruct (List.filter f l); [contradiction | simpl; lia].
Qed.

Lemma num_het_pos r : 0 < num_het r <-> has_het_call r.
Proof.
  unfold num_het, has_het_call. rewrite filter_length_pos.
  split; intros [c [Hin Hc]]; exists c; split; auto.
  - unfold is_het in Hc. destruct (call_gt_type c) as [[]|]; congruence.
  - unfold is_het. now rewrite Hc.
Qed.

Lemma num_hom_alt_pos r : 0 < num_hom_alt r <-> has_hom_alt_call r.
Proof.
  unfold num_hom_alt, has_hom_alt_call. rewrite filter_length_pos.
  split; intros [c [Hin Hc]]; exists c; split; auto.
  - unfold is_hom_alt in Hc. destruct (call_gt_type c) as [[]|]; congruence.
  - unfold is_hom_alt. now rewrite Hc.
Qed.

Lemma num_called_pos r : 0 < num_called r <-> has_called_genotype r.
Proof. unfold num_called, has_called_genotype. apply filter_length_pos. Qed.

(** ** Multi-allelic records *)

(** C2: a record with more than one ALT allele adds no Variant: the record
    is answered with one warning, the labels stay as they were, nothing is
    raised, and the records after it are parsed as if it had not been
    there. *)
Theorem multiallelic_record_is_skipped
    (n : nat) (v b : string) (fp : bool) (r : record) (rest : list record)
    (st : loader_state) :
  1 < length (ALT r) ->
  exists text,
    parse_record n v b fp r st = Done tt (add_warning (mkWarning r text) st)
    /\ labels (add_warning (mkWarning r text) st) = labels st
    /\ parse_records n v b fp (r :: rest) st
       = parse_records n v b fp rest (add_warning (mkWarning r text) st).
Proof.
  intros Hlen.
  assert (Hmulti : (1 <? length (ALT r))%nat = true) by now apply Nat.ltb_lt.
  cbn [parse_records]. unfold bind, parse_record. rewrite Hmulti.
  destruct (negb (is_snp r));
    [| destruct (num_called r <? n)%nat ];
    eexists; (split; [reflexivity | split; reflexivity]).
Qed.

Lemma multiallelic_record_is_skipped_witness :
  1 < length (ALT Fixtures.multi_snp)
  /\ exists text,
       parse_record 1 "good.vcf.gz" "reads.bam" false Fixtures.multi_snp initial_state
       = Done tt (add_warning (mkWarning Fixtures.multi_snp text) initial_state)
       /\ labels (add_warning (mkWarning Fixtures.multi_snp text) initial_state)
          = labels initial_state
       /\ parse_records 1 "good.vcf.gz" "reads.bam" false
            (Fixtures.multi_snp :: [Fixtures.hom_snp]) initial_state
          = parse_records 1 "good.vcf.gz" "reads.bam" false [Fixtures.hom_snp]
              (add_warning (mkWarning Fixtures.multi_snp text) initial_state).
Proof.
  split; [simpl; lia |].
  apply (multiallelic_record_is_skipped 1 "good.vcf.gz" "reads.bam" false
           Fixtures.multi_snp [Fixtures.hom_snp] initial_state).
  simpl; lia.
Defined.

(** ** The extension check *)

Lemma parse_vcf_uncompressed fs v b fp st :
  last_chars 3 v <> ".gz" ->
  _parse_vcf fs v b fp st
  = Raised (AssertionError "VCF file needs to be compressed and indexed") st.
Proof.
  intros H. unfold _parse_vcf, bind, assert.
  destruct (String.eqb_spec (last_chars 3 v) ".gz"); [contradiction | reflexivity].
Qed.

(** C3, as stated, fails: in the batch [good.vcf.gz; plain.vcf] the second
    path is not compressed, yet the first file has been opened and its
    records parsed (two labels, one warning) when the assertion fails. *)
Lemma uncompressed_later_in_batch_counterexample :
  let batch := [Fixtures.triple "good.vcf.gz" false; Fixtures.triple "plain.vcf" false] in
  (exists elem, In elem batch /\ uncompressed elem)
  /\ ~ raises_before_any_parsing (VCFLabelLoader Fixtures.files batch)
  /\ length (labels (final_state (VCFLabelLoader Fixtures.files batch))) = 2
  /\ opened (final_state (VCFLabelLoader Fixtures.files batch)) = ["good.vcf.gz"].
Proof.
  cbv zeta. split; [| split; [| split; reflexivity]].
  - exists (Fixtures.triple "plain.vcf" false). split; [simpl; auto |].
    exists "plain.vcf". split; [reflexivity | discriminate].
  - intros [msg H]. vm_compute in H. discriminate H.
Qed.

(** C3, amended: the extension is checked per file, when the loader reaches
    it.  If a triple's VCF path does not end in [.gz], the loader raises the
    assertion error before that file is opened or any of its records parsed,
    and no later triple is looked at; the triples before it have been parsed
    (or have raised their own error). *)
Theorem uncompressed_vcf_stops_the_batch
    (fs : string -> option Reader) (before after : list VcfBamPaths)
    (elem : VcfBamPaths) (v b : string) :
  paths_vcf elem = Some v ->
  paths_bam elem = Some b ->
  last_chars 3 v <> ".gz" ->
  VCFLabelLoader fs (before ++ elem :: after)%list
  = match load_all fs before initial_state with
    | Done _ st =>
        Raised (AssertionError "VCF file needs to be compressed and indexed") st
    | Raised e st => Raised e st
    end.
Proof.
  intros Hv Hb Hgz. unfold VCFLabelLoader. rewrite load_all_app.
  destruct (load_all fs before initial_state) as [[] st | e st]; [| reflexivity].
  simpl. unfold bind, load_elem. rewrite Hv, Hb.
  now rewrite parse_vcf_uncompressed.
Qed.

Lemma uncompressed_vcf_stops_the_batch_witness :
  VCFLabelLoader Fixtures.files
    ([Fixtures.triple "good.vcf.gz" false] ++
     Fixtures.triple "plain.vcf" false :: [Fixtures.triple "good.vcf.gz" true])%list
  = match load_all Fixtures.files [Fixtures.triple "good.vcf.gz" false] initial_state with
    | Done _ st =>
        Raised (AssertionError "VCF file needs to be compressed and indexed") st
    | Raised e st => Raised e st
    end.
Proof.
  apply (uncompressed_vcf_stops_the_batch Fixtures.files
           [Fixtures.triple "good.vcf.gz" false] [Fixtures.triple "good.vcf.gz" true]
           (Fixtures.triple "plain.vcf" false) "plain.vcf" "reads.bam").
  - reflexivity.
  - reflexivity.
  - vm_compute. discriminate.
Defined.

(** ** The single-sample check *)

Lemma parse_vcf_sample_count fs v b fp st rd :
  last_chars 3 v = ".gz" ->
  fs v = Some rd ->
  length (reader_samples rd) <> 1 ->
  _parse_vcf fs v b fp st
  = Raised (RuntimeError ("Input vcf file " ++ v ++ " must only contain a single sample"))
           (add_opened v st).
Proof.
  intros Hgz Hfs Hn. unfold _parse_vcf, bind, assert, open_reader.
  rewrite Hgz, String.eqb_refl, Hfs. simpl.
  destruct (Nat.eqb_spec (length (reader_samples rd)) 1); [contradiction | reflexivity].
Qed.

Lemma parse_vcf_sample_count_raises fs v b fp st rd :
  fs v = Some rd ->
  length (reader_samples rd) <> 1 ->
  exists e st', _parse_vcf fs v b fp st = Raised e st'
                /\ labels st' = labels st /\ warned st' = warned st
                /\ (opened st' = opened st \/ opened st' = (opened st ++ [v])%list).
Proof.
  intros Hfs Hn.
  destruct (String.eqb_spec (last_chars 3 v) ".gz") as [Hgz | Hgz].
  - rewrite (parse_vcf_sample_count fs v b fp st rd Hgz Hfs Hn).
    eexists _, _. repeat split. now right.
  - rewrite (parse_vcf_uncompressed fs v b fp st Hgz).
    eexists _, _. repeat split. now left.
Qed.

(** C7: a VCF whose sample count is not one is never skipped.  A batch that
    holds such a file cannot be loaded: construction ends in an exception
    and no triple after the file is processed.  When the loader reaches the
    file (the triples before it loaded, its path ends in [.gz]) the exception
    is the [RuntimeError] whose message names the file, and the file has
    contributed no label and no warning. *)
Theorem wrong_sample_count_is_fatal
    (fs : string -> option Reader) (before after : list VcfBamPaths)
    (elem : VcfBamPaths) (v b : string) (rd : Reader) :
  paths_vcf elem = Some v ->
  paths_bam elem = Some b ->
  fs v = Some rd ->
  length (reader_samples rd) <> 1 ->
  (exists e st, VCFLabelLoader fs (before ++ elem :: after)%list = Raised e st
                /\ (forall st0, load_all fs before initial_state = Done tt st0 ->
                      labels st = labels st0 /\ warned st = warned st0
                      /\ (opened st = opened st0
                          \/ opened st = (opened st0 ++ [v])%list)))
  /\ (forall st0,
        load_all fs before initial_state = Done tt st0 ->
        last_chars 3 v = ".gz" ->
        VCFLabelLoader fs (before ++ elem :: after)%list
        = Raised (RuntimeError ("Input vcf file " ++ v ++
                                " must only contain a single sample"))
                 (add_opened v st0)).
Proof.
  intros Hv Hb Hfs Hn. unfold VCFLabelLoader. rewrite load_all_app. split.
  - destruct (load_all fs before initial_state) as [[] st | e st].
    + simpl. unfold bind, load_elem. rewrite Hv, Hb.
      destruct (parse_vcf_sample_count_raises fs v b (is_fp elem) st rd Hfs Hn)
        as [e [st' [-> [Hl [Hw Ho]]]]].
      exists e, st'. split; [reflexivity |].
      intros st0 H0. injection H0 as <-. now repeat split.
    + exists e, st. split; [reflexivity |]. intros st0 H0. discriminate H0.
  - intros st0 H0 Hgz. rewrite H0. simpl. unfold bind, load_elem.
    rewrite Hv, Hb.
    now rewrite (parse_vcf_sample_count fs v b (is_fp elem) st0 rd Hgz Hfs Hn).
Qed.

Lemma wrong_sample_count_is_fatal_witness :
  VCFLabelLoader Fixtures.files
    ([Fixtures.triple "good.vcf.gz" false] ++
     Fixtures.triple "two.vcf.gz" false :: [Fixtures.triple "good.vcf.gz" true])%list
  = Raised (RuntimeError "Input vcf file two.vcf.gz must only contain a single sample")
      (add_opened "two.vcf.gz"
         (final_state (load_all Fixtures.files [Fixtures.triple "good.vcf.gz" false]
                         initial_state))).
Proof.
  refine (proj2 (wrong_sample_count_is_fatal Fixtures.files
           [Fixtures.triple "good.vcf.gz" false] [Fixtures.triple "good.vcf.gz" true]
           (Fixtures.triple "two.vcf.gz" false) "two.vcf.gz" "reads.bam"
           {| reader_samples := ["S1"; "S2"]; reader_records := [Fixtures.het_snp] |}
           _ _ _ _) _ _ _).
  - reflexivity.
  - reflexivity.
  - reflexivity.
  - simpl; lia.
  - reflexivity.
  - reflexivity.
Defined.

(** ** Zygosity *)

Lemma yield_alleles_zygosity r v b z t (alts : list alt) :
  Forall (fun x => zygosity x = z) (fst (yield_alleles r v b z t alts)).
Proof.
  induction alts as [| [sq |] rest IH]; simpl; try constructor.
  - destruct (yield_alleles r v b z t rest) as [vs e]; simpl in *.
    constructor; [reflexivity | exact IH].
Qed.

Lemma create_variant_zygosity_fp r v b :
  Forall (fun x => zygosity x = NO_VARIANT)
         (fst (_create_variant_tuple_from_record r v b true)).
Proof.
  unfold _create_variant_tuple_from_record. simpl.
  destruct (_get_variant_type r); [constructor | apply yield_alleles_zygosity].
Qed.

Lemma parse_record_fp_labels n v b r st :
  exists new,
    labels (final_state (parse_record n v b true r st)) = (labels st ++ new)%list
    /\ Forall (fun x => zygosity x = NO_VARIANT) new.
Proof.
  unfold parse_record.
  destruct (negb (is_snp r));
    [| destruct (num_called r <? n)%nat;
       [| destruct (1 <? length (ALT r))%nat ] ];
    try (exists []; simpl; rewrite app_nil_r; split; [reflexivity | constructor]).
  rewrite consume_run.
  exists (fst (_create_variant_tuple_from_record r v b true)).
  split; [| apply create_variant_zygosity_fp].
  destruct (snd (_create_variant_tuple_from_record r v b true)); reflexivity.
Qed.

Lemma parse_records_fp_labels n v b (rs : list record) : forall st,
  exists new,
    labels (final_state (parse_records n v b true rs st)) = (labels st ++ new)%list
    /\ Forall (fun x => zygosity x = NO_VARIANT) new.
Proof.
  induction rs as [| r rest IH]; intros st; simpl.
  - exists []. rewrite app_nil_r. split; [reflexivity | constructor].
  - unfold bind.
    destruct (parse_record_fp_labels n v b r st) as [new1 [H1 F1]].
    destruct (parse_record n v b true r st) as [[] st1 | e st1]; simpl in H1.
    + destruct (IH st1) as [new2 [H2 F2]].
      exists (new1 ++ new2)%list. rewrite H2, H1, app_assoc.
      split; [reflexivity | now apply Forall_app].
    + exists new1. now split.
Qed.

(** C5: with [is_fp] set, the zygosity is [NO_VARIANT] whatever the
    genotypes of the record are: for the classifier, for every Variant the
    expansion of a record yields, and for every Variant a parse of a whole
    file appends to the labels. *)
Theorem false_positive_forces_no_variant :
  (forall r, _get_variant_zygosity r true = inr NO_VARIANT)
  /\ (forall r v b,
        Forall (fun x => zygosity x = NO_VARIANT)
               (fst (_create_variant_tuple_from_record r v b true)))
  /\ (forall fs v b st,
        exists new,
          labels (final_state (_parse_vcf fs v b true st)) = (labels st ++ new)%list
          /\ Forall (fun x => zygosity x = NO_VARIANT) new).
Proof.
  split; [reflexivity | split; [apply create_variant_zygosity_fp |]].
  intros fs v b st.
  assert (Hnil : exists new, labels st = (labels st ++ new)%list
                 /\ Forall (fun x => zygosity x = NO_VARIANT) new).
  { exists []. rewrite app_nil_r. split; [reflexivity | constructor]. }
  unfold _parse_vcf, bind, assert, open_reader.
  destruct (last_chars 3 v =? ".gz"); simpl; [| exact Hnil].
  destruct (fs v) as [rd |]; simpl; [| exact Hnil].
  destruct (negb (length (reader_samples rd) =? 1)%nat); simpl; [exact Hnil |].
  apply (parse_records_fp_labels _ v b (reader_records rd) (add_opened v st)).
Qed.

(** A hom-ref record, which cannot be classified otherwise, is emitted as
    one [NO_VARIANT] label when [is_fp] is set. *)
Example false_positive_hom_ref :
  map zygosity
    (labels (final_state (parse_record 1 "good.vcf.gz" "reads.bam" true
                            Fixtures.ref_snp initial_state)))
  = [NO_VARIANT].
Proof. reflexivity. Qed.

Lemma zygosity_unclassified r :
  ~ has_het_call r -> ~ has_hom_alt_call r ->
  _get_variant_zygosity r false
  = inl (ValueError "Unexpected variant zygosity - {}" r).
Proof.
  intros Hhet Hhom. unfold _get_variant_zygosity.
  destruct (Nat.ltb_spec 0 (num_het r)) as [H | _];
    [now apply num_het_pos in H |].
  destruct (Nat.ltb_spec 0 (num_hom_alt r)) as [H | _];
    [now apply num_hom_alt_pos in H | reflexivity].
Qed.

(** C6: without [is_fp], a record with a heterozygous call is
    [HETEROZYGOUS]; failing that, a record with a homozygous-alt call is
    [HOMOZYGOUS]; failing both, the classifier raises, and a record that got
    past the filters makes the parse of its file raise that error at once:
    no warning is given, no label appended and no later record parsed. *)
Theorem zygosity_classification (r : record) :
  (has_het_call r -> _get_variant_zygosity r false = inr HETEROZYGOUS)
  /\ (~ has_het_call r -> has_hom_alt_call r ->
      _get_variant_zygosity r false = inr HOMOZYGOUS)
  /\ (~ has_het_call r -> ~ has_hom_alt_call r ->
      _get_variant_zygosity r false
      = inl (ValueError "Unexpected variant zygosity - {}" r)
      /\ forall n v b rest st,
          passes_filters n r ->
          parse_record n v b false r st
          = Raised (ValueError "Unexpected variant zygosity - {}" r) st
          /\ parse_records n v b false (r :: rest) st
             = Raised (ValueError "Unexpected variant zygosity - {}" r) st).
Proof.
  split; [| split].
  - intros H. apply num_het_pos in H. unfold _get_variant_zygosity.
    destruct (Nat.ltb_spec 0 (num_het r)); [reflexivity | lia].
  - intros Hhet Hhom. apply num_hom_alt_pos in Hhom.
    unfold _get_variant_zygosity.
    destruct (Nat.ltb_spec 0 (num_het r)) as [H | _];
      [now apply num_het_pos in H |].
    destruct (Nat.ltb_spec 0 (num_hom_alt r)); [reflexivity | lia].
  - intros Hhet Hhom. split; [now apply zygosity_unclassified |].
    intros n v b rest st (Hsnp & Hcalled & Halt).
    assert (Hrec : parse_record n v b false r st
                   = Raised (ValueError "Unexpected variant zygosity - {}" r) st).
    { unfold parse_record. rewrite Hsnp. simpl.
      destruct (Nat.ltb_spec (num_called r) n); [lia |].
      destruct (Nat.ltb_spec 1 (length (ALT r))); [lia |].
      rewrite consume_run. unfold _create_variant_tuple_from_record.
      rewrite (zygosity_unclassified r Hhet Hhom). simpl.
      now rewrite add_labels_nil. }
    split; [exact Hrec |].
    simpl. unfold bind. now rewrite Hrec.
Qed.

Lemma zygosity_classification_witness :
  _get_variant_zygosity Fixtures.het_snp false = inr HETEROZYGOUS
  /\ _get_variant_zygosity Fixtures.hom_snp false = inr HOMOZYGOUS
  /\ parse_records 1 "good.vcf.gz" "reads.bam" false
       (Fixtures.ref_snp :: [Fixtures.het_snp]) initial_state
     = Raised (ValueError "Unexpected variant zygosity - {}" Fixtures.ref_snp)
              initial_state.
Proof.
  assert (Hhom : ~ has_het_call Fixtures.hom_snp).
  { intros [c [[<- | []] H]]. discriminate H. }
  assert (Href1 : ~ has_het_call Fixtures.ref_snp).
  { intros [c [[<- | []] H]]. discriminate H. }
  assert (Href2 : ~ has_hom_alt_call Fixtures.ref_snp).
  { intros [c [[<- | []] H]]. discriminate H. }
  split; [| split].
  - apply (proj1 (zygosity_classification Fixtures.het_snp)).
    eexists. split; [left; reflexivity | reflexivity].
  - apply (proj1 (proj2 (zygosity_classification Fixtures.hom_snp)) Hhom).
    eexists. split; [left; reflexivity | reflexivity].
  - apply (proj2 (proj2 (zygosity_classification Fixtures.ref_snp)) Href1 Href2).
    unfold passes_filters. repeat split; [vm_compute; lia | vm_compute; lia].
Defined.

(** ** The called-genotype filter *)

Lemma consume_keeps_warned g st :
  warned (final_state (consume g st)) = warned st.
Proof. rewrite consume_run. destruct (snd g); reflexivity. Qed.

(** C9: in a single-sample VCF, an SNP record is skipped by the
    called-genotype filter exactly when none of its sample genotypes is
    called; a record with a called genotype goes on to the allele-count
    filter and, past it, to the expansion into Variants. *)
Theorem called_genotype_filter
    (rd : Reader) (r : record) (v b : string) (fp : bool) (st : loader_state) :
  length (reader_samples rd) = 1 ->
  is_snp r = true ->
  (parse_record (length (reader_samples rd)) v b fp r st
   = Done tt (add_warning
                (mkWarning r "%s is filtered - no samples in this record are called") st)
   <-> ~ has_called_genotype r)
  /\ (has_called_genotype r ->
      parse_record (length (reader_samples rd)) v b fp r st
      = (if (1 <? length (ALT r))%nat
         then warn r "%s is filtered - multiallele recrods are not supported"
         else consume (_create_variant_tuple_from_record r v b fp)) st).
Proof.
  intros -> Hsnp. unfold parse_record. rewrite Hsnp. simpl.
  destruct (Nat.ltb_spec (num_called r) 1) as [Hc | Hc].
  - assert (Hno : ~ has_called_genotype r).
    { intros H. apply num_called_pos in H. lia. }
    split; [split; [intros _; exact Hno | reflexivity] | contradiction].
  - assert (Hyes : has_called_genotype r) by (apply num_called_pos; lia).
    split; [split; [| contradiction] | reflexivity].
    intros H. exfalso.
    destruct (1 <? length (ALT r))%nat.
    + unfold warn, add_warning in H. injection H as H.
      apply app_inv_head in H. discriminate H.
    + apply (f_equal (fun o => length (warned (final_state o)))) in H.
      rewrite consume_keeps_warned in H. simpl in H.
      rewrite length_app in H. simpl in H. lia.
Qed.

Lemma called_genotype_filter_witness :
  (parse_record 1 "good.vcf.gz" "reads.bam" false Fixtures.uncalled_snp initial_state
   = Done tt (add_warning
                (mkWarning Fixtures.uncalled_snp
                   "%s is filtered - no samples in this record are called")
                initial_state)
   <-> ~ has_called_genotype Fixtures.uncalled_snp)
  /\ (has_called_genotype Fixtures.het_snp ->
      parse_record 1 "good.vcf.gz" "reads.bam" false Fixtures.het_snp initial_state
      = Done tt (add_labels
                   (fst (_create_variant_tuple_from_record Fixtures.het_snp
                           "good.vcf.gz" "reads.bam" false))
                   initial_state)).
Proof.
  split.
  - apply (proj1 (called_genotype_filter
                    {| reader_samples := ["NA12878"]; reader_records := [] |}
                    Fixtures.uncalled_snp "good.vcf.gz" "reads.bam" false initial_state
                    eq_refl eq_refl)).
  - apply (proj2 (called_genotype_filter
                    {| reader_samples := ["NA12878"]; reader_records := [] |}
                    Fixtures.het_snp "good.vcf.gz" "reads.bam" false initial_state
                    eq_refl eq_refl)).
Defined.

End LabelLoaderFacts.

(** * Properties of the pileup grammar *)

Module PileupFacts.

Import Pileup.

(** ** Offsets in a string *)

Lemma get_at_length (pre : string) (c : ascii) (rest : string) :
  String.get (String.length pre) (pre ++ String c rest) = Some c.
Proof. induction pre as [| a pre IH]; simpl; [reflexivity | exact IH]. Qed.

Lemma append_snoc (pre : string) (c : ascii) (rest : string) :
  pre ++ String c rest = (pre ++ String c "") ++ rest.
Proof. induction pre as [| a pre IH]; simpl; [reflexivity | now rewrite IH]. Qed.

Lemma length_snoc (pre : string) (c : ascii) :
  String.length (pre ++ String c "") = S (String.length pre).
Proof. induction pre as [| a pre IH]; simpl; [reflexivity | now rewrite IH]. Qed.

Lemma suffix_at_head column off c rest :
  suffix_at column off (String c rest) ->
  String.get off column = Some c /\ suffix_at column (S off) rest.
Proof.
  intros [pre [-> <-]]. split; [apply get_at_length |].
  exists (pre ++ String c ""). split; [apply append_snoc | apply length_snoc].
Qed.

Lemma suffix_at_start column : suffix_at column 0 column.
Proof. now exists "". Qed.

(** ** One step of the scanner keeps the runs located *)

Lemma is_star_prev column off prev :
  prev_at column off prev ->
  is_star prev = true <->
  exists before, off = S before /\ String.get before column = Some "*"%char.
Proof.
  unfold prev_at. destruct off as [| k]; intros ->; simpl.
  - split; [discriminate | intros [before [H _]]; discriminate H].
  - split.
    + destruct (String.get k column) as [a |] eqn:E; simpl; [| discriminate].
      intros H. apply Ascii.eqb_eq in H. subst a. now exists k.
    + intros [before [Hk Hget]]. injection Hk as <-. rewrite Hget. reflexivity.
Qed.

Lemma step_call_located column off prev c :
  String.get off column = Some c ->
  prev_at column off prev ->
  mode_located column (step_call off prev c).
Proof.
  intros Hget Hprev. unfold step_call.
  destruct (Ascii.eqb_spec c "+") as [-> | _];
    [| destruct (Ascii.eqb_spec c "-") as [-> | _] ]; simpl; [| | exact I];
    (split; [exact Hget | now apply is_star_prev]).
Qed.

Lemma take_located column k start flag more acc c m out :
  located column k start flag ->
  take k start flag more acc c = (m, out) ->
  mode_located column m /\ Forall (well_located column) out.
Proof.
  intros Hloc. unfold take. destruct more; intros H; injection H as <- <-; simpl.
  - split; [exact I | constructor; [exact Hloc | constructor]].
  - split; [exact Hloc | constructor].
Qed.

Lemma step_located column off prev m c m' out :
  String.get off column = Some c ->
  prev_at column off prev ->
  mode_located column m ->
  step off prev m c = (m', out) ->
  mode_located column m' /\ Forall (well_located column) out.
Proof.
  intros Hget Hprev Hm. destruct m as [| k start flag n | k start flag more acc]; simpl.
  - intros H. injection H as <- <-.
    split; [now apply step_call_located | constructor].
  - destruct (digit_of c) as [d |].
    + intros H. injection H as <- <-. split; [exact Hm | constructor].
    + destruct n as [| n'].
      * intros H. injection H as <- <-.
        split; [now apply step_call_located |].
        constructor; [exact Hm | constructor].
      * now apply take_located.
  - now apply take_located.
Qed.

Lemma scan_located column (rest : string) : forall off prev m runs,
  suffix_at column off rest ->
  prev_at column off prev ->
  mode_located column m ->
  scan rest off prev m = Some runs ->
  Forall (well_located column) runs.
Proof.
  induction rest as [| c rest IH]; intros off prev m runs Hsuf Hprev Hm; simpl.
  - destruct m; intros H; [injection H as <-; constructor | discriminate | discriminate].
  - destruct (suffix_at_head column off c rest Hsuf) as [Hget Hsuf'].
    destruct (step off prev m c) as [m' out] eqn:Hstep.
    destruct (step_located column off prev m c m' out Hget Hprev Hm Hstep)
      as [Hm' Hout].
    destruct (scan rest (S off) (Some c) m') as [more |] eqn:Hscan; [| discriminate].
    intros H. injection H as <-. apply Forall_app. split; [exact Hout |].
    apply (IH (S off) (Some c) m' more Hsuf'); [| exact Hm' | exact Hscan].
    simpl. now rewrite Hget.
Qed.

Lemma insertion_runs_located column ins :
  insertion_runs column = Some ins ->
  Forall (fun r => kind r = InsertionRun /\ well_located column r) ins.
Proof.
  unfold insertion_runs.
  destruct (scan column 0 None Calls) as [runs |] eqn:Hscan; [| discriminate].
  intros H. injection H as <-.
  assert (Hall : Forall (well_located column) runs).
  { apply (scan_located column column 0 None Calls runs);
      [apply suffix_at_start | reflexivity | exact I | exact Hscan]. }
  apply Forall_forall. intros r Hin. apply filter_In in Hin as [Hin Hk].
  split.
  - unfold is_insertion in Hk. destruct (kind r); [reflexivity | discriminate].
  - rewrite Forall_forall in Hall. now apply Hall.
Qed.

(** C4: the two examples of the specification, and the rule behind the
    flags: the sequences and the flags are parallel lists read off the
    insertion runs of the column, every such run starts at a [+] of the raw
    string, and its flag is true exactly when the character right before
    that [+] is a [*]. *)
Theorem find_insertions_flags :
  find_insertions "A+1Ta*+1TAa+1Ga"
  = Some (["T"; "T"; "G"], [false; true; false])
  /\ find_insertions "G+1CG+1CG+1CGGG-1NTagg+2gag-1ng-1nggGggGG#"
     = Some (["C"; "C"; "C"; "ga"], [false; false; false; false])
  /\ forall column seqs flags,
       find_insertions column = Some (seqs, flags) ->
       exists ins,
         insertion_runs column = Some ins
         /\ seqs = map run_bases ins
         /\ flags = map after_sentinel ins
         /\ length seqs = length flags
         /\ Forall (fun r =>
                      String.get (run_start r) column = Some "+"%char
                      /\ (after_sentinel r = true <->
                          exists before,
                            run_start r = S before
                            /\ String.get before column = Some "*"%char))
                   ins.
Proof.
  split; [reflexivity | split; [reflexivity |]].
  intros column seqs flags. unfold find_insertions.
  destruct (insertion_runs column) as [ins |] eqn:Hins; [| discriminate].
  simpl. intros H. injection H as <- <-.
  exists ins. repeat split; try reflexivity.
  - now rewrite !length_map.
  - apply insertion_runs_located in Hins.
    eapply Forall_impl; [| exact Hins].
    intros r [Hk [Hget Hflag]]. rewrite Hk in Hget. split; assumption.
Qed.

Lemma find_insertions_flags_witness :
  exists ins,
    insertion_runs "a*+2GTc" = Some ins
    /\ ["GT"] = map run_bases ins
    /\ [true] = map after_sentinel ins
    /\ length ["GT"] = length [true]
    /\ Forall (fun r =>
                 String.get (run_start r) "a*+2GTc" = Some "+"%char
                 /\ (after_sentinel r = true <->
                     exists before,
                       run_start r = S before
                       /\ String.get before "a*+2GTc" = Some "*"%char))
              ins.
Proof.
  apply (proj2 (proj2 find_insertions_flags) "a*+2GTc" ["GT"] [true]).
  reflexivity.
Defined.

End PileupFacts.

(** * Properties of the summary encoder *)

Module SummaryEncoderFacts.

Import SummaryEncoder.

Section Rows.

Variable source : string -> nat -> option column.
Variable sub_rows : column -> nat.
Variable row : Type.
Variable encode_row : config -> column -> nat -> row.

#[local] Abbreviation rows_at := (rows_at source sub_rows row encode_row).
#[local] Abbreviation encode := (encode source sub_rows row encode_row).
#[local] Abbreviation row_count := (row_count source sub_rows row encode_row).
#[local] Abbreviation position_index := (position_index source sub_rows row encode_row).
#[local] Abbreviation count_matrix := (count_matrix source sub_rows row encode_row).
#[local] Abbreviation retained_positions := (retained_positions source).
#[local] Abbreviation total_added_rows := (total_added_rows source sub_rows).
#[local] Abbreviation is_retained := (is_retained source).
#[local] Abbreviation added_rows := (added_rows source sub_rows).
#[local] Abbreviation rows_over := (rows_over source sub_rows row encode_row).

(** ** Counting the rows of a list of positions *)

Lemma length_rows_at cfg path p :
  length (rows_at cfg path p)
  = if is_retained cfg path p then S (added_rows path p) else 0.
Proof.
  unfold SummaryEncoder.rows_at, SummaryEncoder.is_retained,
    SummaryEncoder.added_rows, sub_indices.
  destruct (source path p) as [col |]; [| reflexivity].
  destruct (retained cfg col); [| reflexivity].
  now rewrite length_map, length_seq.
Qed.

Lemma rows_over_cons cfg path p ps :
  rows_over cfg path (p :: ps)
  = (if is_retained cfg path p then S (added_rows path p) else 0)
    + rows_over cfg path ps.
Proof.
  unfold SummaryEncoder.rows_over. simpl. now rewrite length_app, length_rows_at.
Qed.

Lemma rows_over_app cfg path ps qs :
  rows_over cfg path (ps ++ qs) = rows_over cfg path ps + rows_over cfg path qs.
Proof.
  unfold SummaryEncoder.rows_over. now rewrite flat_map_app, length_app.
Qed.

Lemma rows_over_split cfg path (ps : list nat) :
  rows_over cfg path ps
  = length (List.filter (is_retained cfg path) ps)
    + list_sum (map (added_rows path) (List.filter (is_retained cfg path) ps)).
Proof.
  induction ps as [| p ps IH]; [reflexivity |].
  rewrite rows_over_cons, IH. simpl.
  destruct (is_retained cfg path p); simpl; lia.
Qed.

Lemma row_count_rows_over cfg region :
  row_count cfg region = rows_over cfg (file_path region) (positions_of region).
Proof.
  unfold SummaryEncoder.row_count, SummaryEncoder.count_matrix,
    SummaryEncoder.encode, SummaryEncoder.rows_over. simpl.
  now rewrite length_map.
Qed.

Lemma rows_over_seq_mono cfg path a n a' n' :
  a' <= a -> a + n <= a' + n' ->
  rows_over cfg path (seq a n) <= rows_over cfg path (seq a' n').
Proof.
  intros Ha Hb.
  replace n' with ((a - a') + (n + (a' + n' - (a + n)))) by lia.
  rewrite !seq_app, !rows_over_app.
  replace (a' + (a - a')) with a by lia. lia.
Qed.

(** C1, amended: the row count of a covered region is the number of
    retained positions plus the rows added for insertions at them, and the
    position index has as many rows; the count never shrinks when the region
    is widened within the covered data; a width-1 region whose position is
    retained has the rows [(start, 0) .. (start, k)] for the [k] rows its
    column adds, which is the single row [(start, 0)] when it adds none. *)
Theorem row_count_of_covered_region (cfg : config) (region : FileRegion) :
  fully_covered source region ->
  row_count cfg region
  = length (retained_positions cfg region) + total_added_rows cfg region
  /\ length (position_index cfg region) = row_count cfg region
  /\ (forall inner,
       file_path inner = file_path region ->
       start_pos region <= start_pos inner ->
       end_pos inner <= end_pos region ->
       row_count cfg inner <= row_count cfg region)
  /\ (end_pos region = S (start_pos region) ->
      forall col,
        source (file_path region) (start_pos region) = Some col ->
        retained cfg col = true ->
        position_index cfg region
        = map (pair (start_pos region)) (seq 0 (S (sub_rows col)))
        /\ (sub_rows col = 0 ->
            row_count cfg region = 1
            /\ position_index cfg region = [(start_pos region, 0)])).
Proof.
  intros _. split; [| split; [| split]].
  - rewrite row_count_rows_over.
    unfold SummaryEncoder.total_added_rows, SummaryEncoder.retained_positions.
    apply rows_over_split.
  - unfold SummaryEncoder.row_count, SummaryEncoder.count_matrix,
      SummaryEncoder.position_index, SummaryEncoder.encode. simpl.
    now rewrite !length_map.
  - intros inner Hpath Hstart Hend. rewrite !row_count_rows_over, Hpath.
    unfold positions_of.
    destruct (Nat.le_gt_cases (end_pos inner) (start_pos inner)) as [Hempty | Hlt].
    + replace (end_pos inner - start_pos inner) with 0 by lia.
      unfold SummaryEncoder.rows_over at 1. simpl. lia.
    + apply rows_over_seq_mono; lia.
  - intros Hwidth col Hcol Hret.
    assert (Hidx : position_index cfg region
                   = map (pair (start_pos region)) (seq 0 (S (sub_rows col)))).
    { unfold SummaryEncoder.position_index, SummaryEncoder.encode, positions_of.
      rewrite Hwidth. replace (S (start_pos region) - start_pos region) with 1 by lia.
      cbn [seq flat_map snd]. rewrite app_nil_r.
      unfold SummaryEncoder.rows_at. rewrite Hcol, Hret.
      unfold sub_indices. rewrite map_map. reflexivity. }
    split; [exact Hidx |].
    intros Hzero. split.
    + unfold SummaryEncoder.row_count, SummaryEncoder.count_matrix.
      assert (Hlen : length (position_index cfg region) = 1)
        by (rewrite Hidx, Hzero; reflexivity).
      unfold SummaryEncoder.position_index, SummaryEncoder.encode in Hlen.
      unfold SummaryEncoder.encode. simpl in *.
      now rewrite length_map in *.
    + rewrite Hidx, Hzero. reflexivity.
Qed.

End Rows.

Lemma toy_source_covered a b path :
  b <= 10 -> fully_covered toy_source (mkRegion a b path).
Proof.
  intros Hb p [_ Hp]. simpl in Hp. unfold toy_source.
  destruct (Nat.ltb_spec p 10); [| lia].
  destruct (p =? 5)%nat; discriminate.
Qed.

(** C1, as stated, fails: the width-1 region [5, 6) of the small pileup is
    covered and its one position is retained, yet the encoder returns two
    rows, indexed [(5, 0); (5, 1)], because the column at 5 holds an
    insertion. *)
Lemma insertion_adds_rows_counterexample :
  ~ one_row_per_retained_position toy_source longest_insertion nat toy_row
      toy_config (mkRegion 5 6 "subreads.pileup")
  /\ fully_covered toy_source (mkRegion 5 6 "subreads.pileup")
  /\ retained_positions toy_source toy_config (mkRegion 5 6 "subreads.pileup") = [5]
  /\ encode toy_source longest_insertion nat toy_row toy_config
       (mkRegion 5 6 "subreads.pileup")
     = ([3; 3], [(5, 0); (5, 1)]).
Proof.
  assert (Hcov : fully_covered toy_source (mkRegion 5 6 "subreads.pileup"))
    by (apply toy_source_covered; lia).
  split; [| split; [exact Hcov | split; reflexivity]].
  intros H. destruct (H Hcov) as [Hrows _]. vm_compute in Hrows. discriminate Hrows.
Qed.

Lemma row_count_of_covered_region_witness :
  row_count toy_source longest_insertion nat toy_row toy_config
    (mkRegion 1 7 "subreads.pileup")
  = length (retained_positions toy_source toy_config (mkRegion 1 7 "subreads.pileup"))
    + total_added_rows toy_source longest_insertion toy_config
        (mkRegion 1 7 "subreads.pileup").
Proof.
  apply (proj1 (row_count_of_covered_region toy_source longest_insertion nat toy_row
                  toy_config (mkRegion 1 7 "subreads.pileup")
                  (toy_source_covered 1 7 "subreads.pileup" ltac:(lia)))).
Defined.

End SummaryEncoderFacts.

(** * Properties of the container protocol *)

Module ContainerFacts.

Import Types Container.

Local Open Scope Z_scope.

(** ** Indexing *)

Lemma getitem_natural (self : BaseLabelLoader) (i : nat) :
  __getitem__ self (Z.of_nat i)
  = match nth_error (_labels self) i with
    | Some v => inr v
    | None => inl IndexError
    end.
Proof.
  unfold __getitem__. cbv zeta.
  destruct (Z.ltb_spec (Z.of_nat i) 0) as [H | _]; [lia |].
  destruct (Z.ltb_spec (Z.of_nat i) 0) as [H | _]; [lia |].
  destruct (Z.leb_spec (Z.of_nat (length (_labels self))) (Z.of_nat i)) as [H | H];
    cbn [orb]; rewrite ?Nat2Z.id.
  - assert (Hn : nth_error (_labels self) i = None) by (apply nth_error_None; lia).
    now rewrite Hn.
  - reflexivity.
Qed.


(** X2: a negative index counts from the end: for [-len <= idx < 0],
    [loader[idx]] is [loader[idx + len]], the label at that position of the
    list; in particular [loader[-1]] is the last label. *)
Theorem getitem_negative_index (self : BaseLabelLoader) (idx : Z) :
  - Z.of_nat (__len__ self) <= idx < 0 ->
  __getitem__ self idx = __getitem__ self (idx + Z.of_nat (__len__ self))
  /\ exists v,
       __getitem__ self idx = inr v
       /\ nth_error (_labels self) (Z.to_nat (idx + Z.of_nat (__len__ self)))
          = Some v.
Proof.
  unfold __len__. intros Hidx.
  set (n := Z.of_nat (length (_labels self))) in *.
  assert (Heq : __getitem__ self idx = __getitem__ self (idx + n)).
  { unfold __getitem__. cbv zeta. fold n.
    assert (H1 : (idx <? 0)%Z = true) by (apply Z.ltb_lt; lia).
    assert (H2 : (idx + n <? 0)%Z = false) by (apply Z.ltb_ge; lia).
    rewrite H1. cbv iota. rewrite !H2. cbv iota. rewrite ?H2. reflexivity. }
  split; [exact Heq |].
  assert (Hnat : __getitem__ self (idx + n)
                 = match nth_error (_labels self) (Z.to_nat (idx + n)) with
                   | Some v => inr v
                   | None => inl IndexError
                   end).
  { rewrite <- getitem_natural. f_equal. lia. }
  rewrite Heq, Hnat.
  destruct (nth_error (_labels self) (Z.to_nat (idx + n))) as [v |] eqn:E.
  - now exists v.
  - apply nth_error_None in E. unfold n in *. lia.
Qed.

Lemma getitem_negative_index_witness :
  __getitem__ sample_loader (-1) = __getitem__ sample_loader (-1 + 2)
  /\ exists v,
       __getitem__ sample_loader (-1) = inr v
       /\ nth_error (_labels sample_loader) (Z.to_nat (-1 + 2)) = Some v.
Proof.
  apply (getitem_negative_index sample_loader (-1)).
  vm_compute. split; [discriminate | reflexivity].
Defined.

Local Close Scope Z_scope.

(** ** Iteration *)

Lemma next_in_range (it : LabelLoaderIterator) (v : Variant) :
  nth_error (_labels (_label_loader it)) (_index it) = Some v ->
  __next__ it = (inr v, advanced it).
Proof.
  intros Hnth. unfold __next__, __len__.
  assert (Hlt : _index it < length (_labels (_label_loader it)))
    by (apply nth_error_Some; congruence).
  destruct (Nat.ltb_spec (_index it) (length (_labels (_label_loader it))));
    [| lia].
  now rewrite getitem_natural, Hnth.
Qed.

Lemma next_exhausted (it : LabelLoaderIterator) :
  __len__ (_label_loader it) <= _index it ->
  __next__ it = (inl StopIteration, it).
Proof.
  intros Hle. unfold __next__.
  destruct (Nat.ltb_spec (_index it) (__len__ (_label_loader it))); [lia | reflexivity].
Qed.

Lemma skipn_nth_error {A} (l : list A) : forall i v,
  nth_error l i = Some v -> skipn i l = v :: skipn (S i) l.
Proof.
  induction l as [| a l IH]; intros [| i] v H; simpl in *; try discriminate.
  - now injection H as ->.
  - now apply IH.
Qed.

Lemma next_inside (it : LabelLoaderIterator) :
  _index it < __len__ (_label_loader it) ->
  exists v, nth_error (_labels (_label_loader it)) (_index it) = Some v
            /\ __next__ it = (inr v, advanced it).
Proof.
  intros Hlt.
  destruct (nth_error (_labels (_label_loader it)) (_index it)) as [v |] eqn:E.
  - exists v. split; [reflexivity | now apply next_in_range].
  - apply nth_error_None in E. unfold __len__ in Hlt. lia.
Qed.

(** X3: [__next__] returns the label under the index and moves the index
    by one while the index is inside the loader, and raises [StopIteration]
    without moving once it is not; it never raises [IndexError].  Hence an
    exhausted iterator stays exhausted. *)
Theorem next_step (it : LabelLoaderIterator) :
  (_index it < __len__ (_label_loader it) ->
   exists v, nth_error (_labels (_label_loader it)) (_index it) = Some v
             /\ __next__ it = (inr v, advanced it))
  /\ (__len__ (_label_loader it) <= _index it ->
      __next__ it = (inl StopIteration, it)
      /\ __next__ (snd (__next__ it)) = (inl StopIteration, it))
  /\ fst (__next__ it) <> inl IndexError.
Proof.
  pose proof (next_inside it) as Hin.
  split; [exact Hin | split].
  - intros Hle. rewrite (next_exhausted it Hle). simpl.
    split; [reflexivity | now apply next_exhausted].
  - destruct (Nat.lt_ge_cases (_index it) (__len__ (_label_loader it))) as [Hlt | Hge].
    + destruct (Hin Hlt) as [v [_ ->]]. discriminate.
    + rewrite (next_exhausted it Hge). discriminate.
Qed.

Lemma next_step_witness :
  (exists v, nth_error (_labels sample_loader) 1 = Some v
             /\ __next__ (mkIterator sample_loader 1)
                = (inr v, advanced (mkIterator sample_loader 1)))
  /\ __next__ (mkIterator sample_loader 2)
     = (inl StopIteration, mkIterator sample_loader 2).
Proof.
  split.
  - apply (proj1 (next_step (mkIterator sample_loader 1))). vm_compute. lia.
  - apply (proj1 (proj2 (next_step (mkIterator sample_loader 2)))). vm_compute. lia.
Defined.

Lemma collect_rest (fuel : nat) : forall it : LabelLoaderIterator,
  __len__ (_label_loader it) - _index it < fuel ->
  collect fuel it = Some (inr (skipn (_index it) (_labels (_label_loader it)))).
Proof.
  induction fuel as [| fuel IH]; intros it Hfuel; [lia |].
  cbn [collect].
  destruct (Nat.lt_ge_cases (_index it) (__len__ (_label_loader it))) as [Hlt | Hge].
  - destruct (next_inside it Hlt) as [v [Hnth ->]].
    rewrite (IH (advanced it)) by (simpl; lia). simpl.
    now rewrite (skipn_nth_error _ _ _ Hnth).
  - rewrite (next_exhausted it Hge).
    rewrite skipn_all2 by exact Hge. reflexivity.
Qed.

(** X4: a [for] loop over an iterator gets the labels from the index on,
    in list order, and ends normally; over a fresh iterator it gets all the
    labels of the loader.  One call of [__next__] more than there are labels
    left is enough. *)
Theorem collect_yields_labels (fuel : nat) (it : LabelLoaderIterator) :
  __len__ (_label_loader it) - _index it < fuel ->
  collect fuel it = Some (inr (skipn (_index it) (_labels (_label_loader it))))
  /\ collect (S (__len__ (_label_loader it))) (__iter__ (_label_loader it))
     = Some (inr (_labels (_label_loader it))).
Proof.
  intros Hfuel. split; [now apply collect_rest |].
  rewrite collect_rest by (simpl; lia). reflexivity.
Qed.

Lemma collect_yields_labels_witness :
  collect 2 (mkIterator sample_loader 1)
  = Some (inr (skipn 1 (_labels sample_loader)))
  /\ collect 3 (__iter__ sample_loader) = Some (inr (_labels sample_loader)).
Proof.
  apply (collect_yields_labels 2 (mkIterator sample_loader 1)).
  vm_compute. lia.
Defined.

End ContainerFacts.

(** * Properties of loader runs *)

Module ComposeFacts.

Import Py Types Vcf LabelLoader Compose.
Import LabelLoaderFacts.

(** ** States form a monoid under [extend] *)

Lemma extend_initial_r st : extend st initial_state = st.
Proof. destruct st; unfold extend; simpl. now rewrite !app_nil_r. Qed.

Lemma extend_initial_l st : extend initial_state st = st.
Proof. now destruct st. Qed.

Lemma extend_assoc a b c : extend (extend a b) c = extend a (extend b c).
Proof. unfold extend; simpl. now rewrite !app_assoc. Qed.

Lemma prepend_prepend {A} a b (o : outcome A) :
  prepend a (prepend b o) = prepend (extend a b) o.
Proof. destruct o; simpl; now rewrite extend_assoc. Qed.

Lemma extend_add_labels vs st :
  extend st (add_labels vs initial_state) = add_labels vs st.
Proof. destruct st; unfold extend, add_labels; simpl. now rewrite !app_nil_r. Qed.

Lemma extend_add_warning w st :
  extend st (add_warning w initial_state) = add_warning w st.
Proof. destruct st; unfold extend, add_warning; simpl. now rewrite !app_nil_r. Qed.

Lemma extend_add_opened f st :
  extend st (add_opened f initial_state) = add_opened f st.
Proof. destruct st; unfold extend, add_opened; simpl. now rewrite !app_nil_r. Qed.

(** ** Every operation of the loader only appends *)

Lemma ao_ret {A} (a : A) : appends_only (ret a).
Proof. intros st. unfold ret; simpl. now rewrite extend_initial_r. Qed.

Lemma ao_raise {A} e : appends_only (@raise A e).
Proof. intros st. unfold raise; simpl. now rewrite extend_initial_r. Qed.

Lemma ao_bind {A B} (m : M A) (k : A -> M B) :
  appends_only m -> (forall a, appends_only (k a)) -> appends_only (bind m k).
Proof.
  intros Hm Hk st. unfold bind. rewrite (Hm st).
  destruct (m initial_state) as [a s1 | e s1]; simpl; [| reflexivity].
  rewrite (Hk a (extend st s1)), (Hk a s1). now rewrite prepend_prepend.
Qed.

Lemma ao_assert c msg : appends_only (assert c msg).
Proof. unfold assert. destruct c; [apply ao_ret | apply ao_raise]. Qed.

Lemma ao_warn r text : appends_only (warn r text).
Proof. intros st. unfold warn; simpl. now rewrite extend_add_warning. Qed.

Lemma ao_consume g : appends_only (consume g).
Proof.
  intros st. rewrite !consume_run.
  destruct (snd g); simpl; now rewrite extend_add_labels.
Qed.

Lemma ao_parse_record n v b fp r : appends_only (parse_record n v b fp r).
Proof.
  unfold parse_record.
  destruct (negb (is_snp r)); [apply ao_warn |].
  destruct (num_called r <? n)%nat; [apply ao_warn |].
  destruct (1 <? length (ALT r))%nat; [apply ao_warn | apply ao_consume].
Qed.

Lemma ao_parse_records n v b fp (rs : list record) :
  appends_only (parse_records n v b fp rs).
Proof.
  induction rs as [| r rest IH]; simpl; [apply ao_ret |].
  apply ao_bind; [apply ao_parse_record | intros _; exact IH].
Qed.

Lemma ao_open_reader fs v : appends_only (open_reader fs v).
Proof.
  intros st. unfold open_reader.
  destruct (fs v); simpl; now rewrite extend_add_opened.
Qed.

Lemma ao_parse_vcf fs v b fp : appends_only (_parse_vcf fs v b fp).
Proof.
  unfold _parse_vcf.
  apply ao_bind; [apply ao_assert | intros _].
  apply ao_bind; [apply ao_open_reader | intros rd].
  destruct (negb (length (reader_samples rd) =? 1)%nat);
    [apply ao_raise | apply ao_parse_records].
Qed.

Lemma ao_load_elem fs elem : appends_only (load_elem fs elem).
Proof.
  unfold load_elem.
  destruct (paths_vcf elem); [| apply ao_raise].
  destruct (paths_bam elem); [apply ao_parse_vcf | apply ao_raise].
Qed.

Lemma ao_load_all fs (batch : list VcfBamPaths) : appends_only (load_all fs batch).
Proof.
  induction batch as [| elem rest IH]; simpl; [apply ao_ret |].
  apply ao_bind; [apply ao_load_elem | intros _; exact IH].
Qed.

(** X5: what a parse adds does not depend on what was loaded before: run
    from any state, [_parse_vcf] and the loop of [__init__] give the outcome
    of the run from the empty state, appended to that state.  Labels,
    warnings and opened files that are already there are never changed,
    removed or reordered, whether the run ends normally or raises. *)
Theorem runs_only_append (fs : string -> option Reader) :
  (forall v b fp st,
     _parse_vcf fs v b fp st = prepend st (_parse_vcf fs v b fp initial_state))
  /\ (forall batch st,
       load_all fs batch st = prepend st (load_all fs batch initial_state)).
Proof.
  split.
  - intros v b fp. apply ao_parse_vcf.
  - intros batch. apply ao_load_all.
Qed.

(** X6: loading a batch [first ++ second] is loading [first] and then
    [second] on its own: when [first] loads, the outcome is that of
    [second] with the state of [first] in front; when [first] raises, its
    exception and state are the outcome and [second] is not touched. *)
Theorem batches_compose (fs : string -> option Reader)
    (first second : list VcfBamPaths) :
  VCFLabelLoader fs (first ++ second)%list
  = match VCFLabelLoader fs first with
    | Done _ st1 => prepend st1 (VCFLabelLoader fs second)
    | Raised e st1 => Raised e st1
    end.
Proof.
  unfold VCFLabelLoader. rewrite load_all_app.
  destruct (load_all fs first initial_state) as [[] st1 | e st1]; [| reflexivity].
  apply ao_load_all.
Qed.

(** ** One record *)

Lemma yield_alleles_exn r v b z t (alts : list alt) e :
  snd (yield_alleles r v b z t alts) = Some e -> e = AttributeError.
Proof.
  induction alts as [| [sq |] rest IH]; simpl.
  - discriminate.
  - destruct (yield_alleles r v b z t rest) as [vs e']; simpl in *. exact IH.
  - intros H. now injection H as <-.
Qed.

(** The expansion of an SNP record with at most one ALT allele: no label
    when it raises, one label per allele otherwise. *)
Lemma create_short r v b fp :
  is_snp r = true -> length (ALT r) <= 1 ->
  let g := _create_variant_tuple_from_record r v b fp in
  Forall (made_from r v b fp) (fst g)
  /\ match snd g with
     | None => length (fst g) = length (ALT r)
     | Some e => fst g = [] /\ expected_exception e
     end.
Proof.
  intros Hsnp Hlen. unfold _create_variant_tuple_from_record.
  destruct (_get_variant_zygosity r fp) as [e | z] eqn:Hz; simpl.
  - split; [constructor | split; [reflexivity |]].
    unfold _get_variant_zygosity in Hz. destruct fp; [discriminate |].
    destruct (Nat.ltb_spec 0 (num_het r)); [discriminate |].
    destruct (Nat.ltb_spec 0 (num_hom_alt r)); [discriminate |].
    injection Hz as <-. simpl. repeat split; [exact Hsnp | lia | lia].
  - unfold _get_variant_type. rewrite Hsnp.
    destruct (ALT r) as [| [a |] [| a' rest]] eqn:Halt; simpl in *; try lia.
    + split; [constructor | reflexivity].
    + split; [| reflexivity].
      constructor; [| constructor].
      unfold made_from, echoes; simpl. rewrite Halt. now repeat split.
    + split; [constructor | now split].
Qed.

Lemma record_cases n v b fp r st :
  (exists text, parse_record n v b fp r st
                = Done tt (add_warning (mkWarning r text) st))
  \/ (exists vs, parse_record n v b fp r st = Done tt (add_labels vs st)
                 /\ length vs = length (ALT r) /\ length vs <= 1
                 /\ Forall (made_from r v b fp) vs)
  \/ (exists e, parse_record n v b fp r st = Raised e st
                /\ expected_exception e).
Proof.
  unfold parse_record.
  destruct (negb (is_snp r)) eqn:Hsnp; [left; now eexists |].
  destruct (num_called r <? n)%nat; [left; now eexists |].
  destruct (Nat.ltb_spec 1 (length (ALT r))) as [| Hlen]; [left; now eexists |].
  right. apply negb_false_iff in Hsnp.
  destruct (create_short r v b fp Hsnp Hlen) as [Hmade Hsnd].
  rewrite consume_run.
  destruct (snd (_create_variant_tuple_from_record r v b fp)) as [e |].
  - right. destruct Hsnd as [-> He]. exists e. now rewrite add_labels_nil.
  - left. eexists. split; [reflexivity |]. repeat split; [exact Hsnd | lia | exact Hmade].
Qed.

(** X7: a record is handled as a whole.  [_parse_vcf] answers a record
    in one of three ways: one warning about it and nothing else; or its
    labels, as many as it has ALT alleles and at most one; or an exception
    that leaves labels, warnings and opened files exactly as they were
    before the record. *)
Theorem record_is_atomic n v b fp (r : record) (st : loader_state) :
  (exists text, parse_record n v b fp r st
                = Done tt (add_warning (mkWarning r text) st))
  \/ (exists vs, parse_record n v b fp r st = Done tt (add_labels vs st)
                 /\ length vs = length (ALT r) /\ length vs <= 1)
  \/ (exists e, parse_record n v b fp r st = Raised e st).
Proof.
  destruct (record_cases n v b fp r st)
    as [[text H] | [[vs [H [H1 [H2 _]]]] | [e [H _]]]].
  - left. now exists text.
  - right; left. now exists vs.
  - right; right. now exists e.
Qed.

(** X8: every record of a file that parses is accounted for once: when the
    records all have an ALT allele and the loop over them ends normally,
    the labels and the warnings added number as many as the records. *)
Theorem records_are_accounted_for n v b fp (rs : list record) :
  forall st st',
  Forall (fun r => ALT r <> []) rs ->
  parse_records n v b fp rs st = Done tt st' ->
  length (labels st') + length (warned st')
  = length (labels st) + length (warned st) + length rs.
Proof.
  induction rs as [| r rest IH]; intros st st' Halt; simpl.
  - unfold ret. intros H. injection H as <-. lia.
  - inversion Halt as [| r' rest' Hr Hrest]; subst.
    unfold bind.
    destruct (record_cases n v b fp r st)
      as [[text H] | [[vs [H [H1 [H2 _]]]] | [e [H _]]]]; rewrite H;
      [| | discriminate]; intros Hdone;
      rewrite (IH _ _ Hrest Hdone); unfold add_warning, add_labels; simpl;
      rewrite length_app; simpl.
    + lia.
    + assert (length (ALT r) <> 0) by (destruct (ALT r); [congruence | discriminate]).
      lia.
Qed.

Lemma records_are_accounted_for_witness :
  length (labels (final_state
            (parse_records 1 "good.vcf.gz" "reads.bam" false
               [Fixtures.het_snp; Fixtures.multi_snp; Fixtures.uncalled_snp]
               initial_state)))
  + length (warned (final_state
              (parse_records 1 "good.vcf.gz" "reads.bam" false
                 [Fixtures.het_snp; Fixtures.multi_snp; Fixtures.uncalled_snp]
                 initial_state)))
  = length (labels initial_state) + length (warned initial_state) + 3.
Proof.
  apply (records_are_accounted_for 1 "good.vcf.gz" "reads.bam" false
           [Fixtures.het_snp; Fixtures.multi_snp; Fixtures.uncalled_snp]
           initial_state).
  - repeat constructor; discriminate.
  - reflexivity.
Defined.

(** ** Files *)

Lemma parse_record_opened n v b fp r st :
  opened (final_state (parse_record n v b fp r st)) = opened st.
Proof.
  destruct (record_cases n v b fp r st)
    as [[text ->] | [[vs [-> _]] | [e [-> _]]]]; reflexivity.
Qed.

Lemma parse_records_opened n v b fp (rs : list record) : forall st,
  opened (final_state (parse_records n v b fp rs st)) = opened st.
Proof.
  induction rs as [| r rest IH]; intros st; simpl; [reflexivity |].
  unfold bind. pose proof (parse_record_opened n v b fp r st) as H.
  destruct (parse_record n v b fp r st) as [[] st1 | e st1]; simpl in H;
    [rewrite IH |]; exact H.
Qed.

Lemma parse_records_raises n v b fp (rs : list record) : forall st e st',
  parse_records n v b fp rs st = Raised e st' -> expected_exception e.
Proof.
  induction rs as [| r rest IH]; intros st e st'; simpl; [discriminate |].
  unfold bind.
  destruct (record_cases n v b fp r st)
    as [[text ->] | [[vs [-> _]] | [e' [-> He]]]].
  - apply IH.
  - apply IH.
  - intros H. now injection H as <- _.
Qed.

Lemma parse_records_made n v b fp (rs : list record) : forall st,
  exists new,
    labels (final_state (parse_records n v b fp rs st)) = (labels st ++ new)%list
    /\ Forall (fun x => exists r, In r rs /\ made_from r v b fp x) new.
Proof.
  induction rs as [| r rest IH]; intros st; simpl.
  - exists []. rewrite app_nil_r. split; [reflexivity | constructor].
  - assert (Hrest : forall s, exists new,
              labels (final_state (parse_records n v b fp rest s))
              = (labels s ++ new)%list
              /\ Forall (fun x => exists r0, (r = r0 \/ In r0 rest)
                                             /\ made_from r0 v b fp x) new).
    { intros s. destruct (IH s) as [new [H F]]. exists new. split; [exact H |].
      eapply Forall_impl; [| exact F]. intros x [r0 [Hin Hm]]. exists r0. auto. }
    unfold bind.
    destruct (record_cases n v b fp r st)
      as [[text ->] | [[vs [-> [_ [_ Hvs]]]] | [e [-> _]]]].
    + exact (Hrest (add_warning (mkWarning r text) st)).
    + destruct (Hrest (add_labels vs st)) as [new [H F]].
      exists (vs ++ new)%list. rewrite H. simpl. rewrite app_assoc.
      split; [reflexivity |]. apply Forall_app. split; [| exact F].
      eapply Forall_impl; [| exact Hvs]. intros x Hx. exists r. auto.
    + exists []. simpl. rewrite app_nil_r. split; [reflexivity | constructor].
Qed.

(** What one call of [_parse_vcf] can do. *)
Lemma parse_vcf_cases fs v b fp st :
  match _parse_vcf fs v b fp st with
  | Done _ st' =>
      last_chars 3 v = ".gz"
      /\ (exists rd, fs v = Some rd /\ length (reader_samples rd) = 1)
      /\ opened st' = (opened st ++ [v])%list
  | Raised e st' =>
      expected_exception e
      /\ (opened st' = opened st
          \/ (last_chars 3 v = ".gz" /\ opened st' = (opened st ++ [v])%list))
  end.
Proof.
  unfold _parse_vcf, bind, assert, open_reader.
  destruct (String.eqb_spec (last_chars 3 v) ".gz") as [Hgz | Hgz]; simpl;
    [| split; [now right | now left]].
  destruct (fs v) as [rd |]; simpl; [| split; [exact I | now right]].
  destruct (Nat.eqb_spec (length (reader_samples rd)) 1) as [Hone | Hone]; simpl.
  - pose proof (parse_records_opened (length (reader_samples rd)) v b fp
                  (reader_records rd) (add_opened v st)) as Hop.
    pose proof (parse_records_raises (length (reader_samples rd)) v b fp
                  (reader_records rd) (add_opened v st)) as Hex.
    destruct (parse_records (length (reader_samples rd)) v b fp
                (reader_records rd) (add_opened v st)) as [[] st' | e st'];
      simpl in Hop.
    + split; [exact Hgz | split; [now exists rd | exact Hop]].
    + split; [now apply (Hex e st') | right; now split].
  - split; [now exists v | right; now split].
Qed.

Lemma load_elem_cases fs elem st :
  match load_elem fs elem st with
  | Done _ st' =>
      loadable fs elem
      /\ exists v, paths_vcf elem = Some v /\ opened st' = (opened st ++ [v])%list
  | Raised e st' =>
      expected_exception e
      /\ (opened st' = opened st
          \/ exists v, paths_vcf elem = Some v /\ last_chars 3 v = ".gz"
                       /\ opened st' = (opened st ++ [v])%list)
  end.
Proof.
  unfold load_elem, loadable.
  destruct (paths_vcf elem) as [v |] eqn:Hv;
    [| simpl; split; [now left | now left]].
  destruct (paths_bam elem) as [b |] eqn:Hb;
    [| simpl; split; [now left | now left]].
  pose proof (parse_vcf_cases fs v b (is_fp elem) st) as H.
  destruct (_parse_vcf fs v b (is_fp elem) st) as [[] st' | e st'].
  - destruct H as [Hgz [[rd [Hfs Hone]] Hop]].
    split; [now exists v, b, rd | now exists v].
  - destruct H as [He [Hop | [Hgz Hop]]]; split; auto.
    right. now exists v.
Qed.

(** X9: a loader that was constructed had a batch in order: every triple
    gave both paths, its VCF path ends in [.gz], the file opened and has
    exactly one sample; and the files were opened once each, in the order
    of the batch. *)
Theorem constructed_means_loadable (fs : string -> option Reader)
    (batch : list VcfBamPaths) (st : loader_state) :
  VCFLabelLoader fs batch = Done tt st ->
  Forall (loadable fs) batch
  /\ map Some (opened st) = map paths_vcf batch.
Proof.
  unfold VCFLabelLoader.
  assert (Hgen : forall st0,
            load_all fs batch st0 = Done tt st ->
            Forall (loadable fs) batch
            /\ map Some (opened st)
               = (map Some (opened st0) ++ map paths_vcf batch)%list).
  { induction batch as [| elem rest IH]; intros st0; simpl.
    - unfold ret. intros H. injection H as <-.
      split; [constructor | now rewrite app_nil_r].
    - unfold bind. pose proof (load_elem_cases fs elem st0) as Hc.
      destruct (load_elem fs elem st0) as [[] st1 | e st1]; [| discriminate].
      destruct Hc as [Hload [v [Hv Hop]]]. intros Hdone.
      destruct (IH st1 Hdone) as [Hall Hopen].
      split; [now constructor |].
      rewrite Hopen, Hop, map_app, <- app_assoc, Hv. reflexivity. }
  intros H. apply (Hgen initial_state H).
Qed.

Lemma constructed_means_loadable_witness :
  Forall (loadable Fixtures.files)
    [Fixtures.triple "good.vcf.gz" false; Fixtures.triple "good.vcf.gz" true]
  /\ map Some
       (opened (final_state
          (VCFLabelLoader Fixtures.files
             [Fixtures.triple "good.vcf.gz" false; Fixtures.triple "good.vcf.gz" true])))
     = map paths_vcf
         [Fixtures.triple "good.vcf.gz" false; Fixtures.triple "good.vcf.gz" true].
Proof.
  apply (constructed_means_loadable Fixtures.files
           [Fixtures.triple "good.vcf.gz" false; Fixtures.triple "good.vcf.gz" true]).
  reflexivity.
Defined.

(** X10: whatever the batch and however construction ends, the files
    handed to [vcf.Reader] are the VCF paths of an initial part of the
    batch, in batch order, and each of them ends in [.gz]: a path without
    the extension is never opened, and no file is opened after a failure. *)
Theorem opened_files_follow_the_batch (fs : string -> option Reader)
    (batch : list VcfBamPaths) :
  exists rest,
    map paths_vcf batch
    = (map Some (opened (final_state (VCFLabelLoader fs batch))) ++ rest)%list
    /\ Forall (fun f => last_chars 3 f = ".gz")
              (opened (final_state (VCFLabelLoader fs batch))).
Proof.
  unfold VCFLabelLoader.
  assert (Hgen : forall st0, exists os rest,
            opened (final_state (load_all fs batch st0)) = (opened st0 ++ os)%list
            /\ map paths_vcf batch = (map Some os ++ rest)%list
            /\ Forall (fun f => last_chars 3 f = ".gz") os).
  { induction batch as [| elem tl IH]; intros st0; simpl.
    - exists [], []. simpl. rewrite app_nil_r. repeat split. constructor.
    - unfold bind. pose proof (load_elem_cases fs elem st0) as Hc.
      destruct (load_elem fs elem st0) as [[] st1 | e st1].
      + destruct Hc as [(v' & b & rd & Hv' & _ & Hgz & _) [v [Hv Hop]]].
        assert (v' = v) by congruence. subst v'.
        destruct (IH st1) as [os [rest [H1 [H2 H3]]]].
        exists (v :: os), rest. rewrite H1, Hop, <- app_assoc, Hv, H2.
        repeat split. now constructor.
      + destruct Hc as [_ [Hop | [v [Hv [Hgz Hop]]]]]; simpl.
        * exists [], (paths_vcf elem :: map paths_vcf tl). rewrite Hop, app_nil_r.
          repeat split. constructor.
        * exists [v], (map paths_vcf tl). rewrite Hop, Hv.
          repeat split. now constructor. }
  destruct (Hgen initial_state) as [os [rest [H1 [H2 H3]]]].
  simpl in H1. exists rest. rewrite H1. now split.
Qed.

(** ** Labels and exceptions *)

Lemma load_all_made fs (batch : list VcfBamPaths) : forall st,
  exists new,
    labels (final_state (load_all fs batch st)) = (labels st ++ new)%list
    /\ Forall (label_origin fs batch) new.
Proof.
  induction batch as [| elem tl IH]; intros st; simpl.
  - exists []. rewrite app_nil_r. split; [reflexivity | constructor].
  - assert (Hhead : exists new,
              labels (final_state (load_elem fs elem st)) = (labels st ++ new)%list
              /\ Forall (label_origin fs (elem :: tl)) new).
    { assert (Hnil : exists new, labels st = (labels st ++ new)%list
                     /\ Forall (label_origin fs (elem :: tl)) new).
      { exists []. rewrite app_nil_r. split; [reflexivity | constructor]. }
      unfold load_elem.
      destruct (paths_vcf elem) as [v |] eqn:Hv; [| exact Hnil].
      destruct (paths_bam elem) as [b |] eqn:Hb; [| exact Hnil].
      unfold _parse_vcf, bind, assert, open_reader.
      destruct (last_chars 3 v =? ".gz"); simpl; [| exact Hnil].
      destruct (fs v) as [rd |] eqn:Hfs; simpl; [| exact Hnil].
      destruct (negb (length (reader_samples rd) =? 1)%nat); simpl; [exact Hnil |].
      destruct (parse_records_made (length (reader_samples rd)) v b (is_fp elem)
                  (reader_records rd) (add_opened v st)) as [new [H F]].
      exists new. split; [exact H |].
      eapply Forall_impl; [| exact F]. intros x [r [Hin Hm]].
      exists elem, v, b, rd, r.
      split; [now left | now repeat (split; [assumption |])]. }
    unfold bind. destruct Hhead as [new1 [H1 F1]].
    destruct (load_elem fs elem st) as [[] st1 | e st1]; simpl in H1.
    + destruct (IH st1) as [new2 [H2 F2]].
      exists (new1 ++ new2)%list. rewrite H2, H1, app_assoc.
      split; [reflexivity |]. apply Forall_app. split; [exact F1 |].
      eapply Forall_impl; [| exact F2].
      intros x (e' & v & b & rd & r & Hin & Hrest).
      exists e', v, b, rd, r. split; [now right | exact Hrest].
    + exists new1. now split.
Qed.

(** X11: every label of a loader, constructed or stopped by an exception,
    was made from an SNP record with exactly one ALT allele in the file of
    one of the batch's triples: it repeats the record's fields, carries that
    triple's VCF and BAM paths, is typed [SNP] (never [INSERTION] or
    [DELETION]) and has the zygosity the classifier gives the record under
    the triple's [is_fp]. *)
Theorem labels_come_from_snp_records (fs : string -> option Reader)
    (batch : list VcfBamPaths) :
  Forall (label_origin fs batch)
         (labels (final_state (VCFLabelLoader fs batch))).
Proof.
  unfold VCFLabelLoader.
  destruct (load_all_made fs batch initial_state) as [new [H F]].
  now rewrite H.
Qed.

(** X16: the zygosity of a label tells whether its triple was a
    false-positive one: every label of a loader carries the VCF and BAM
    paths of a triple of the batch for which the label is [NO_VARIANT]
    exactly when that triple has [is_fp] set. *)
Theorem label_zygosity_by_triple (fs : string -> option Reader)
    (batch : list VcfBamPaths) :
  Forall (fun x =>
            exists elem,
              In elem batch
              /\ paths_vcf elem = Some (vcf x) /\ paths_bam elem = Some (bam x)
              /\ (zygosity x = NO_VARIANT <-> is_fp elem = true))
         (labels (final_state (VCFLabelLoader fs batch))).
Proof.
  unfold VCFLabelLoader.
  destruct (load_all_made fs batch initial_state) as [new [H F]].
  rewrite H. simpl. eapply Forall_impl; [| exact F].
  intros x (elem & v & b & rd & r & Hin & Hv & Hb & _ & _ & Hm).
  destruct Hm as (_ & _ & Hvcf & Hbam & _ & Hz).
  exists elem. rewrite Hvcf, Hbam. repeat split; try assumption.
  - intros Hno. rewrite Hno in Hz. unfold _get_variant_zygosity in Hz.
    destruct (is_fp elem); [reflexivity |].
    destruct (0 <? num_het r)%nat; [discriminate |].
    destruct (0 <? num_hom_alt r)%nat; discriminate.
  - intros Hfp. rewrite Hfp in Hz. simpl in Hz. now injection Hz as <-.
Qed.

(** X12: construction can only end in one of the loader's own errors: the
    assertion on the triple or on the [.gz] extension, the single-sample
    [RuntimeError], the zygosity [ValueError] (for an SNP record without a
    het or hom-alt call), a missing allele sequence, or a file that does not
    open.  The "Unexpected variant type" error of [_get_variant_type] is
    never raised, since only SNP records reach it. *)
Theorem construction_errors (fs : string -> option Reader)
    (batch : list VcfBamPaths) (e : exn) (st : loader_state) :
  VCFLabelLoader fs batch = Raised e st ->
  expected_exception e
  /\ forall r, e <> ValueError "Unexpected variant type - {}" r.
Proof.
  unfold VCFLabelLoader.
  assert (Hgen : forall st0, load_all fs batch st0 = Raised e st ->
                             expected_exception e).
  { induction batch as [| elem tl IH]; intros st0; simpl; [discriminate |].
    unfold bind. pose proof (load_elem_cases fs elem st0) as Hc.
    destruct (load_elem fs elem st0) as [[] st1 | e1 st1].
    - apply IH.
    - intros H. injection H as <- _. apply Hc. }
  intros H. pose proof (Hgen initial_state H) as He.
  split; [exact He |].
  intros r ->. simpl in He. destruct He as [Hmsg _]. discriminate Hmsg.
Qed.

Lemma construction_errors_witness :
  expected_exception
    (RuntimeError "Input vcf file two.vcf.gz must only contain a single sample")
  /\ forall r,
       RuntimeError "Input vcf file two.vcf.gz must only contain a single sample"
       <> ValueError "Unexpected variant type - {}" r.
Proof.
  apply (construction_errors Fixtures.files [Fixtures.triple "two.vcf.gz" false]
           _ (add_opened "two.vcf.gz" initial_state)).
  reflexivity.
Defined.

(** ** Order *)

Lemma parse_record_by_filter n v b fp r st :
  parse_record n v b fp r st
  = match filter_text n r with
    | Some text => Done tt (add_warning (mkWarning r text) st)
    | None => consume (_create_variant_tuple_from_record r v b fp) st
    end.
Proof.
  unfold parse_record, filter_text.
  destruct (negb (is_snp r)); [reflexivity |].
  destruct (num_called r <? n)%nat; [reflexivity |].
  destruct (1 <? length (ALT r))%nat; reflexivity.
Qed.

(** X13: labels and warnings keep the order of the file.  When the loop
    over the records ends normally, the labels added are the labels of the
    records that pass the filters, record after record, the warnings added
    are those of the records that fail one, record after record, and no file
    was opened. *)
Theorem labels_in_file_order n v b fp (rs : list record) :
  forall st st',
  parse_records n v b fp rs st = Done tt st' ->
  labels st' = (labels st ++ flat_map (record_labels n v b fp) rs)%list
  /\ warned st' = (warned st ++ flat_map (record_warnings n) rs)%list
  /\ opened st' = opened st.
Proof.
  induction rs as [| r rest IH]; intros st st'; simpl.
  - unfold ret. intros H. injection H as <-. now rewrite !app_nil_r.
  - unfold bind, record_labels, record_warnings.
    rewrite parse_record_by_filter.
    destruct (filter_text n r) as [text |].
    + intros H. apply IH in H as (Hl & Hw & Ho). simpl in *.
      rewrite Hl, Hw, Ho, <- app_assoc. now repeat split.
    + rewrite consume_run.
      destruct (snd (_create_variant_tuple_from_record r v b fp)); [discriminate |].
      intros H. apply IH in H as (Hl & Hw & Ho). simpl in *.
      rewrite Hl, Hw, Ho, <- app_assoc. now repeat split.
Qed.

Lemma labels_in_file_order_witness :
  labels (final_state
     (parse_records 1 "good.vcf.gz" "reads.bam" false
        [Fixtures.het_snp; Fixtures.multi_snp; Fixtures.hom_snp] initial_state))
  = (labels initial_state
     ++ flat_map (record_labels 1 "good.vcf.gz" "reads.bam" false)
          [Fixtures.het_snp; Fixtures.multi_snp; Fixtures.hom_snp])%list.
Proof.
  apply (labels_in_file_order 1 "good.vcf.gz" "reads.bam" false
           [Fixtures.het_snp; Fixtures.multi_snp; Fixtures.hom_snp] initial_state).
  reflexivity.
Defined.

(** ** Flattening INFO *)

Lemma string_app_assoc (a b c : string) : (a ++ b) ++ c = a ++ (b ++ c).
Proof. induction a as [| x a IH]; simpl; [reflexivity | now rewrite IH]. Qed.

Lemma join_app sep (l1 l2 : list string) :
  l1 <> [] -> l2 <> [] ->
  join sep (l1 ++ l2)%list = join sep l1 ++ sep ++ join sep l2.
Proof.
  unfold join. intros H1 H2. induction l1 as [| x [| y t] IH]; [contradiction | |].
  - destruct l2; [contradiction | reflexivity].
  - change (String.concat sep ((x :: y :: t) ++ l2)%list)
      with (x ++ sep ++ String.concat sep ((y :: t) ++ l2)%list).
    rewrite IH by discriminate.
    change (String.concat sep (x :: y :: t))
      with (x ++ sep ++ String.concat sep (y :: t)).
    now rewrite !string_app_assoc.
Qed.

(** X14: flattening follows the dictionary: the flattening of the entries
    of [d1] followed by those of [d2], both non-empty, is the flattening of
    [d1], a [;], and the flattening of [d2].  No separator is put before the
    first or after the last entry. *)
Theorem get_record_info_app (d1 d2 : dict) :
  d1 <> [] -> d2 <> [] ->
  _get_record_info (d1 ++ d2)%list
  = _get_record_info d1 ++ ";" ++ _get_record_info d2.
Proof.
  intros H1 H2. unfold _get_record_info. rewrite !info_loop_acc. simpl.
  rewrite map_app. apply join_app.
  - destruct d1; [contradiction | discriminate].
  - destruct d2; [contradiction | discriminate].
Qed.

Lemma get_record_info_app_witness :
  _get_record_info ([("DP", VAtom (AInt 10))] ++ [("DB", VAtom (ABool true))])%list
  = _get_record_info [("DP", VAtom (AInt 10))] ++ ";"
    ++ _get_record_info [("DB", VAtom (ABool true))].
Proof.
  apply (get_record_info_app [("DP", VAtom (AInt 10))] [("DB", VAtom (ABool true))]);
    discriminate.
Defined.

(** ** Construction, then iteration *)

(** X15: a [for] loop over the loader of a batch [first ++ second], both
    of which load, yields the labels of [first] and then those of [second],
    and its [len] is the sum of theirs. *)
Theorem iterate_concatenated_batches (fs : string -> option Reader)
    (first second : list VcfBamPaths) (st1 st2 : loader_state) :
  VCFLabelLoader fs first = Done tt st1 ->
  VCFLabelLoader fs second = Done tt st2 ->
  exists loader,
    Container.constructed (VCFLabelLoader fs (first ++ second)%list) = Some loader
    /\ Container.__len__ loader = length (labels st1) + length (labels st2)
    /\ Container.collect (S (Container.__len__ loader)) (Container.__iter__ loader)
       = Some (inr (labels st1 ++ labels st2)%list).
Proof.
  unfold VCFLabelLoader. intros H1 H2.
  rewrite load_all_app, H1, (ao_load_all fs second st1), H2.
  exists {| Container._labels := (labels st1 ++ labels st2)%list |}.
  split; [reflexivity |]. split.
  - unfold Container.__len__. simpl. apply length_app.
  - rewrite ContainerFacts.collect_rest by (simpl; lia). reflexivity.
Qed.

Lemma iterate_concatenated_batches_witness :
  exists loader,
    Container.constructed
      (VCFLabelLoader Fixtures.files
         ([Fixtures.triple "good.vcf.gz" false] ++ [Fixtures.triple "good.vcf.gz" true])%list)
    = Some loader
    /\ Container.__len__ loader = 2 + 2
    /\ Container.collect (S (Container.__len__ loader)) (Container.__iter__ loader)
       = Some (inr (labels (final_state
                      (VCFLabelLoader Fixtures.files [Fixtures.triple "good.vcf.gz" false]))
                    ++ labels (final_state
                      (VCFLabelLoader Fixtures.files [Fixtures.triple "good.vcf.gz" true])))%list).
Proof.
  apply (iterate_concatenated_batches Fixtures.files
           [Fixtures.triple "good.vcf.gz" false] [Fixtures.triple "good.vcf.gz" true]
           (final_state (VCFLabelLoader Fixtures.files [Fixtures.triple "good.vcf.gz" false]))
           (final_state (VCFLabelLoader Fixtures.files [Fixtures.triple "good.vcf.gz" true])));
    reflexivity.
Defined.

End ComposeFacts.
